(** * StackedPG: the stacked periodogram of [stackedpg.py]

    A shallow embedding of [StackedPg._calcStacked] (src/stackedpg.py, lines
    75-100) and the properties of it that the specification states.

    The method lists the regular files of a folder, reads each one with
    [np.genfromtxt], divides its power column by the trapezoidal integral of
    power over frequency, folds the normalized columns into a running product
    (AND) and a running sum (OR), divides both accumulators by their own
    integrals and stores the three columns in [self.stacked].  A file whose
    processing raises is appended to [self.error_files].

    Numbers.  The arrays of the program hold binary64 floats.  The embedding
    is written over a [Scalar] interface that only names the four
    arithmetic operations and the constants the code uses; the properties
    that follow from the control flow alone are proved for any such
    arithmetic, and everything that depends on the values is stated at the
    instance [float], Rocq's primitive binary64 numbers, with rounding,
    overflow, infinities and NaN as the program has them. *)

From Stdlib Require Import String DecimalString.
From Stdlib Require Import List Arith Lia Bool Permutation.
From Stdlib Require Import ZArith Floats.
Import ListNotations.

(** ** Scalars *)

Class Scalar (F : Type) : Type := {
  sadd : F -> F -> F;
  ssub : F -> F -> F;
  smul : F -> F -> F;
  sdiv : F -> F -> F;
  szero : F;
  sone : F;
  stwo : F
}.

Declare Scope scalar_scope.
Delimit Scope scalar_scope with sc.
Infix ".+" := sadd (at level 50, left associativity) : scalar_scope.
Infix ".-" := ssub (at level 50, left associativity) : scalar_scope.
Infix ".*" := smul (at level 40, left associativity) : scalar_scope.
Infix "./" := sdiv (at level 40, left associativity) : scalar_scope.
Local Open Scope scalar_scope.

(** binary64, as numpy's [float64]. *)
#[export] Instance float_scalar : Scalar float := {
  sadd := PrimFloat.add;
  ssub := PrimFloat.sub;
  smul := PrimFloat.mul;
  sdiv := PrimFloat.div;
  szero := PrimFloat.zero;
  sone := PrimFloat.one;
  stwo := PrimFloat.two
}.

(** ** Exceptions

    A Python exception is its class name and its message; [str e] is what
    the [except] clause of line 95 records. *)

Inductive exn : Type := Exn (cls : string) (msg : string).

Definition exn_class (e : exn) : string := let 'Exn c _ := e in c.
Definition str (e : exn) : string := let 'Exn _ m := e in m.

Inductive outcome (A : Type) : Type :=
| Ret (a : A)
| Raise (e : exn).
Arguments Ret {A} a.
Arguments Raise {A} e.

Definition obind {A B} (m : outcome A) (k : A -> outcome B) : outcome B :=
  match m with
  | Ret a => k a
  | Raise e => Raise e
  end.

Notation "x <- m ;; k" := (obind m (fun x => k))
  (at level 61, m at next level, right associativity).

(** A non-negative integer as Python prints it. *)
Definition repr (n : nat) : string := NilEmpty.string_of_uint (Nat.to_uint n).

Definition IndexError (m : string) : exn := Exn "IndexError" m.
Definition ValueError (m : string) : exn := Exn "ValueError" m.
Definition TypeError (m : string) : exn := Exn "TypeError" m.

(** ** numpy arrays

    What the program handles are arrays of dimension 0, 1 and 2.  A matrix
    [Arr2 c rows] has shape [(length rows, c)]. *)

Inductive ndarray (F : Type) : Type :=
| Arr0 (x : F)
| Arr1 (v : list F)
| Arr2 (ncols : nat) (rows : list (list F)).
Arguments Arr0 {F} x.
Arguments Arr1 {F} v.
Arguments Arr2 {F} ncols rows.

Definition ndim {F} (a : ndarray F) : nat :=
  match a with
  | Arr0 _ => 0
  | Arr1 _ => 1
  | Arr2 _ _ => 2
  end.

(** [a[:, k]]: only a matrix takes two indices, and [k] must be one of its
    columns. *)
Definition column {F} `{Scalar F} (k : nat) (a : ndarray F) : outcome (list F) :=
  match a with
  | Arr2 c rows =>
      if k <? c then Ret (map (fun r => nth k r szero) rows)
      else Raise (IndexError ("index " ++ repr k ++
                              " is out of bounds for axis 1 with size " ++ repr c)%string)
  | _ => Raise (IndexError ("too many indices for array: array is " ++ repr (ndim a) ++
                            "-dimensional, but 2 were indexed")%string)
  end.

(** Elementwise combination of two lists of one length. *)
Fixpoint map2 {A B C} (f : A -> B -> C) (a : list A) (b : list B) : list C :=
  match a, b with
  | x :: a', y :: b' => f x y :: map2 f a' b'
  | _, _ => []
  end.

(** A binary ufunc on two one-dimensional arrays: shapes [(n,)] and [(m,)]
    combine when [n = m] or one of them is 1 (broadcasting); otherwise
    numpy raises [ValueError]. *)
Definition broadcast {F} (op : F -> F -> F) (a b : list F) : outcome (list F) :=
  if length a =? length b then Ret (map2 op a b)
  else match a, b with
       | [x], _ => Ret (map (op x) b)
       | _, [y] => Ret (map (fun x => op x y) a)
       | _, _ =>
           Raise (ValueError ("operands could not be broadcast together with shapes (" ++
                              repr (length a) ++ ",) (" ++ repr (length b) ++ ",) ")%string)
       end.

(** [a.sum()], as numpy adds a contiguous array of floats (its pairwise
    summation): fewer than eight elements one after the other; up to 128
    elements in eight interleaved partial sums [r0 .. r7], which are added
    as [((r0 + r1) + (r2 + r3)) + ((r4 + r5) + (r6 + r7))] before the
    elements left over when the length is no multiple of eight; a longer
    array as the sum of its two parts, the first being half of it cut down
    to a multiple of eight.  The result is added to the zero the reduction
    starts from. *)
Fixpoint add_blocks {F} `{Scalar F} (k : nat) (r a : list F) : list F * list F :=
  match k with
  | 0 => (r, a)
  | S k' => add_blocks k' (map2 sadd r (firstn 8 a)) (skipn 8 a)
  end.

Definition unrolled_sum {F} `{Scalar F} (a : list F) : F :=
  let '(r, rest) := add_blocks (length a / 8 - 1) (firstn 8 a) (skipn 8 a) in
  match r with
  | [r0; r1; r2; r3; r4; r5; r6; r7] =>
      fold_left sadd rest (((r0 .+ r1) .+ (r2 .+ r3)) .+ ((r4 .+ r5) .+ (r6 .+ r7)))
  | _ => fold_left sadd a szero
  end.

(** [fuel] bounds the depth of the halving; the length of the array is
    more than enough. *)
Fixpoint pairwise_sum {F} `{Scalar F} (fuel : nat) (a : list F) : F :=
  if length a <? 8 then fold_left sadd a szero
  else if length a <=? 128 then unrolled_sum a
  else match fuel with
       | 0 => unrolled_sum a
       | S fuel' =>
           let n2 := length a / 2 - (length a / 2) mod 8 in
           pairwise_sum fuel' (firstn n2 a) .+ pairwise_sum fuel' (skipn n2 a)
       end.

Definition sum {F} `{Scalar F} (a : list F) : F :=
  szero .+ pairwise_sum (length a) a.

(** [np.diff x = x[1:] - x[:-1]]. *)
Definition diff {F} `{Scalar F} (x : list F) : list F :=
  map2 ssub (tl x) (removelast x).

(** [y[1:] + y[:-1]]. *)
Definition pair_sums {F} `{Scalar F} (y : list F) : list F :=
  map2 sadd (tl y) (removelast y).

(** The composite trapezoidal rule as a formula, for [y] and [x] of one
    length: the sum of [(x[i+1] - x[i]) * (y[i+1] + y[i]) / 2]. *)
Definition trapezoid {F} `{Scalar F} (y x : list F) : F :=
  sum (map (fun v => v ./ stwo) (map2 smul (diff x) (pair_sums y))).

(** [np.trapz(y=y, x=x)] on one-dimensional arrays:
    [(d * (y[1:] + y[:-1]) / 2.0).sum()] with [d = diff(x)]. *)
Definition trapz {F} `{Scalar F} (y x : list F) : outcome F :=
  p <- broadcast smul (diff x) (pair_sums y) ;;
  Ret (sum (map (fun v => v ./ stwo) p)).

(** [np.trapz] as lines 97-98 call it, on variables that may still be
    [None]: integrating [None] raises inside numpy; without [x] the spacing
    is the default [dx = 1.0]. *)
Definition np_trapz {F} `{Scalar F} (y x : option (list F)) : outcome F :=
  match y, x with
  | None, _ => Raise (IndexError "list assignment index out of range")
  | Some y, Some x => trapz y x
  | Some y, None => Ret (sum (map (fun v => sone .* v ./ stwo) (pair_sums y)))
  end.

(** [a / t] for an array and a scalar. *)
Definition div_by {F} `{Scalar F} (t : F) (a : list F) : list F :=
  map (fun v => v ./ t) a.

(** [np.vstack((g, a, o)).T]: three rows of one length, transposed into
    rows [g[i], a[i], o[i]]. *)
Fixpoint rows3 {F} (g a o : list F) : list (list F) :=
  match g, a, o with
  | x :: g', y :: a', z :: o' => [x; y; z] :: rows3 g' a' o'
  | _, _, _ => []
  end.

Definition vstackT {F} (g a o : list F) : outcome (ndarray F) :=
  if (length g =? length a) && (length a =? length o)
  then Ret (Arr2 3 (rows3 g a o))
  else Raise (ValueError "all the input array dimensions must match exactly").

(** ** The folder

    An entry of [os.listdir(self.folder)]: its name, whether
    [os.path.isfile(self.folder + f)] holds, and what
    [np.genfromtxt(self.folder + f, ...)] does on it: raise, or return an
    array. *)

Record dir_entry (F : Type) : Type := {
  name : string;
  isfile : bool;
  genfromtxt : outcome (ndarray F)
}.
Arguments name {F} d.
Arguments isfile {F} d.
Arguments genfromtxt {F} d.

(** [np.genfromtxt] squeezes its result: an array it returns with two
    dimensions has at least two rows and at least two columns (one row, or
    one column, comes back one-dimensional). *)
Definition squeezed {F} (a : ndarray F) : Prop :=
  match a with
  | Arr2 c rows => 2 <= c /\ 2 <= length rows
  | _ => True
  end.

Definition from_genfromtxt {F} (f : dir_entry F) : Prop :=
  match genfromtxt f with
  | Ret a => squeezed a
  | Raise _ => True
  end.

(** ** The loop of lines 79-95 *)

(** The three local variables, [None] until the first file is folded. *)
Record locals (F : Type) : Type := {
  frecs : option (list F);
  stacked_and : option (list F);
  stacked_or : option (list F)
}.
Arguments frecs {F} l.
Arguments stacked_and {F} l.
Arguments stacked_or {F} l.

Definition locals0 {F} : locals F :=
  {| frecs := None; stacked_and := None; stacked_or := None |}.

(** Statements of the [try] block run on the local variables and may raise;
    what was assigned before the exception stays assigned. *)
Definition stmt (F A : Type) : Type := locals F -> outcome A * locals F.

Definition sbind {F A B} (m : stmt F A) (k : A -> stmt F B) : stmt F B :=
  fun l => match m l with
           | (Ret a, l') => k a l'
           | (Raise e, l') => (Raise e, l')
           end.

Definition eval {F A} (m : outcome A) : stmt F A := fun l => (m, l).
Definition read {F A} (get : locals F -> A) : stmt F A := fun l => (Ret (get l), l).
Definition assign {F} (set : locals F -> locals F) : stmt F unit :=
  fun l => (Ret tt, set l).

Notation "x <~ m ;; k" := (sbind m (fun x => k))
  (at level 61, m at next level, right associativity).

Definition set_and {F} (a : list F) (l : locals F) : locals F :=
  {| frecs := frecs l; stacked_and := Some a; stacked_or := stacked_or l |}.
Definition set_or {F} (o : list F) (l : locals F) : locals F :=
  {| frecs := frecs l; stacked_and := stacked_and l; stacked_or := Some o |}.

(** A binary ufunc whose left operand is a variable that may be [None]. *)
Definition ufunc {F} (op : F -> F -> F) (a : option (list F)) (b : list F)
  : outcome (list F) :=
  match a with
  | Some a => broadcast op a b
  | None => Raise (TypeError "unsupported operand type(s): 'NoneType' and 'float'")
  end.

(** Line 86: the power column divided by its integral over the frequency
    column.  The result is written back into [new_pg], which is local to
    the iteration; it is returned here with the frequency column. *)
Definition normalize {F} `{Scalar F} (new_pg : ndarray F) : outcome (list F * list F) :=
  p <- column 1 new_pg ;;
  y <- column 1 new_pg ;;
  x <- column 0 new_pg ;;
  t <- trapz y x ;;
  Ret (x, div_by t p).

(** Lines 84-93, the body of the [try]. *)
Definition try_body {F} `{Scalar F} (f : dir_entry F) : stmt F unit :=
  new_pg <~ eval (genfromtxt f) ;;
  cols <~ eval (normalize new_pg) ;;
  let '(x, p) := cols in
  fr <~ read frecs ;;
  match fr with
  | None =>
      assign (fun _ => {| frecs := Some x; stacked_and := Some p; stacked_or := Some p |})
  | Some _ =>
      sa <~ read stacked_and ;;
      a <~ eval (ufunc smul sa p) ;;
      _ <~ assign (set_and a) ;;
      so <~ read stacked_or ;;
      o <~ eval (ufunc sadd so p) ;;
      assign (set_or o)
  end.

(** The state of the loop: the local variables and [self.error_files]. *)
Record loop_state (F : Type) : Type := {
  vars : locals F;
  error_files : list (string * string)
}.
Arguments vars {F} l.
Arguments error_files {F} l.

Definition loop_state0 {F} : loop_state F :=
  {| vars := locals0; error_files := [] |}.

(** One iteration, lines 83-95: [except Exception as e] appends
    [(f, str(e))] and goes on. *)
Definition iteration {F} `{Scalar F} (st : loop_state F) (f : dir_entry F)
  : loop_state F :=
  match try_body f (vars st) with
  | (Ret _, l) => {| vars := l; error_files := error_files st |}
  | (Raise e, l) =>
      {| vars := l; error_files := error_files st ++ [(name f, str e)] |}
  end.

Definition for_loop {F} `{Scalar F} (pg_files : list (dir_entry F))
  (st : loop_state F) : loop_state F :=
  fold_left iteration pg_files st.

(** ** Lines 96-100 *)

Definition finalize {F} `{Scalar F} (l : locals F) : outcome (ndarray F) :=
  ta <- np_trapz (stacked_and l) (frecs l) ;;
  a <- match stacked_and l with
       | Some a => Ret (div_by ta a)
       | None => Raise (TypeError "unsupported operand type(s): 'NoneType' and 'float'")
       end ;;
  to <- np_trapz (stacked_or l) (frecs l) ;;
  o <- match stacked_or l with
       | Some o => Ret (div_by to o)
       | None => Raise (TypeError "unsupported operand type(s): 'NoneType' and 'float'")
       end ;;
  match frecs l with
  | Some g => vstackT g a o
  | None => Raise (ValueError "all the input array dimensions must match exactly")
  end.

(** ** [_calcStacked]

    The object after the call: [error_files], [stacked] ([None] as
    [__init__] left it when the method raised) and the exception that
    escaped, if any. *)
Record run (F : Type) : Type := {
  run_error_files : list (string * string);
  stacked : option (ndarray F);
  raised : option exn
}.
Arguments run_error_files {F} r.
Arguments stacked {F} r.
Arguments raised {F} r.

(** Line 78. *)
Definition pg_files_of {F} (listdir : list (dir_entry F)) : list (dir_entry F) :=
  filter isfile listdir.

Definition _calcStacked {F} `{Scalar F} (listdir : list (dir_entry F)) : run F :=
  let st := for_loop (pg_files_of listdir) loop_state0 in
  match finalize (vars st) with
  | Ret tbl => {| run_error_files := error_files st; stacked := Some tbl; raised := None |}
  | Raise e => {| run_error_files := error_files st; stacked := None; raised := Some e |}
  end.

(** ** Vocabulary of the specification *)

(** A file that parses into a table over the grid [g]: a regular file on
    which [np.genfromtxt] returns a matrix with at least two columns whose
    first column is [g]. *)
Definition freq_col {F} `{Scalar F} (a : ndarray F) : list F :=
  match a with
  | Arr2 _ rows => map (fun r => nth 0 r szero) rows
  | _ => []
  end.

Definition power_col {F} `{Scalar F} (a : ndarray F) : list F :=
  match a with
  | Arr2 _ rows => map (fun r => nth 1 r szero) rows
  | _ => []
  end.

Definition parses_to {F} (f : dir_entry F) (a : ndarray F) : Prop :=
  isfile f = true /\ genfromtxt f = Ret a.

Definition table_on {F} `{Scalar F} (g : list F) (a : ndarray F) : Prop :=
  match a with
  | Arr2 c _ => 2 <= c /\ freq_col a = g
  | _ => False
  end.

(** The same for every file of a list, each with the table it parses
    into. *)
Definition table_of {F} (f : dir_entry F) : ndarray F :=
  match genfromtxt f with
  | Ret a => a
  | Raise _ => Arr1 []
  end.

Definition valid_on {F} `{Scalar F} (g : list F) (f : dir_entry F) : Prop :=
  parses_to f (table_of f) /\ table_on g (table_of f).

(** The power column of a table divided by the trapezoidal integral of
    power over frequency. *)
Definition normalized {F} `{Scalar F} (a : ndarray F) : list F :=
  div_by (trapezoid (power_col a) (freq_col a)) (power_col a).

(** The AND and OR accumulators of the specification: the first normalized
    curve, multiplied (added) pointwise by each following one in turn. *)
Definition and_curve {F} `{Scalar F} (first : ndarray F) (others : list (ndarray F)) : list F :=
  fold_left (map2 smul) (map normalized others) (normalized first).

Definition or_curve {F} `{Scalar F} (first : ndarray F) (others : list (ndarray F)) : list F :=
  fold_left (map2 sadd) (map normalized others) (normalized first).

(** The same, at one grid index. *)
Definition product_at {F} `{Scalar F} (i : nat) (first : ndarray F) (others : list (ndarray F)) : F :=
  fold_left smul (map (fun a => nth i (normalized a) szero) others)
    (nth i (normalized first) szero).

Definition sum_at {F} `{Scalar F} (i : nat) (first : ndarray F) (others : list (ndarray F)) : F :=
  fold_left sadd (map (fun a => nth i (normalized a) szero) others)
    (nth i (normalized first) szero).

(** The accumulators are either all unset or all set, the two curves of one
    length. *)
Definition aligned {F} (l : locals F) : Prop :=
  match frecs l, stacked_and l, stacked_or l with
  | None, None, None => True
  | Some _, Some a, Some o => length a = length o
  | _, _, _ => False
  end.

(** The invariant of the specification, once a file has been folded. *)
Definition same_length {F} (l : locals F) : Prop :=
  match frecs l, stacked_and l, stacked_or l with
  | None, None, None => True
  | Some g, Some a, Some o =>
      2 <= length g /\ length g = length a /\ length a = length o
  | _, _, _ => False
  end.

(** Whether the [try] block of a file completes when no file has been
    folded yet. *)
Definition loads {F} `{Scalar F} (f : dir_entry F) : bool :=
  match fst (try_body f locals0) with
  | Ret _ => true
  | Raise _ => false
  end.

(** The error entries a list of files adds when the loop starts from given
    local variables. *)
Definition errors_from {F} `{Scalar F} (l : locals F) (files : list (dir_entry F))
  : list (string * string) :=
  error_files (for_loop files {| vars := l; error_files := [] |}).

(** One column of the result table, as a list. *)
Definition result_col {F} `{Scalar F} (k : nat) (r : run F) : list F :=
  match stacked r with
  | Some (Arr2 _ rows) => map (fun row => nth k row szero) rows
  | _ => []
  end.

(** A binary64 number that is NaN or an infinity. *)
Definition nonfinite (x : float) : bool := is_nan x || is_infinity x.

Definition all_nonfinite (l : list float) : Prop :=
  Forall (fun v => nonfinite v = true) l.

Definition all_nan (l : list float) : Prop :=
  Forall (fun v => is_nan v = true) l.

(** The power column of a table integrates to (plus or minus) zero. *)
Definition zero_integral (t : ndarray float) : Prop :=
  is_zero (trapezoid (power_col t) (freq_col t)) = true.

(** ** Further vocabulary *)

(** A matrix of [n] rows with at least two columns, whatever its
    frequency column. *)
Definition has_rows {F} (n : nat) (a : ndarray F) : Prop :=
  match a with
  | Arr2 c rows => 2 <= c /\ length rows = n
  | _ => False
  end.

(** A table cut down to its first two columns, and a file that parses into
    the table so cut. *)
Definition first_two {F} (a : ndarray F) : ndarray F :=
  match a with
  | Arr2 c rows => if 2 <=? c then Arr2 2 (map (firstn 2) rows) else a
  | _ => a
  end.

Definition first_two_columns {F} (f : dir_entry F) : dir_entry F :=
  {| name := name f;
     isfile := isfile f;
     genfromtxt := match genfromtxt f with
                   | Ret a => Ret (first_two a)
                   | Raise e => Raise e
                   end |}.

(** Whether [np.genfromtxt] returns on a file, and the log entries of the
    files on which it raises. *)
Definition parses {F} (f : dir_entry F) : bool :=
  match genfromtxt f with
  | Ret _ => true
  | Raise _ => false
  end.

Definition parse_errors {F} (files : list (dir_entry F)) : list (string * string) :=
  flat_map (fun f => match genfromtxt f with
                     | Raise e => [(name f, str e)]
                     | Ret _ => []
                     end) files.

(** Whether the [try] block of a file completes from given local
    variables. *)
Definition folds {F} `{Scalar F} (f : dir_entry F) (l : locals F) : bool :=
  match fst (try_body f l) with
  | Ret _ => true
  | Raise _ => false
  end.

(** A binary64 table with a NaN in its frequency or power column. *)
Definition has_nan (t : ndarray float) : Prop :=
  Exists (fun v => is_nan v = true) (power_col t) \/
  Exists (fun v => is_nan v = true) (freq_col t).

(** A binary64 list that holds a NaN. *)
Definition some_nan (l : list float) : Prop :=
  Exists (fun v => is_nan v = true) l.

(** A binary64 number that is a zero (of either sign) or NaN. *)
Definition zero_or_nan (x : float) : bool := is_zero x || is_nan x.

(** An initial segment of a list. *)
Definition initial_segment {A} (a b : list A) : Prop := exists c, b = a ++ c.

(** The local variables before any fold, or set on the grid [g] with both
    curves as long as [g]. *)
Definition set_on {F} (g : list F) (l : locals F) : Prop :=
  l = locals0 \/
  exists a o,
    l = {| frecs := Some g; stacked_and := Some a; stacked_or := Some o |} /\
    length a = length g /\ length o = length g.

(** ** The object: [__init__] and [plot]

    The constructor stores its arguments and runs [_calcStacked]; [plot]
    hands the table to matplotlib.  The calls [plot] makes are recorded in
    order, with the arguments that depend on the object; their constant
    styling arguments (figure size, font sizes, padding) are left out.
    [plot] is written twice: first as the run in which matplotlib returns
    from every call, which is enough to say what the code of [plot] raises
    by itself; then, as [plot_with], against a backend that may raise on
    any call, as [plt.savefig] does on a path whose directory does not
    exist. *)

Module StackedPg.

Record self (F : Type) : Type := {
  folder : string;
  case_name : string;
  header : bool;
  sep : string;
  comments : string;
  ref_lines : list (F * option string);
  ref_colors : list string;
  ref_styles : list string;
  error_files : list (string * string);
  stacked : option (ndarray F)
}.
Arguments folder {F} s.
Arguments case_name {F} s.
Arguments header {F} s.
Arguments sep {F} s.
Arguments comments {F} s.
Arguments ref_lines {F} s.
Arguments ref_colors {F} s.
Arguments ref_styles {F} s.
Arguments error_files {F} s.
Arguments stacked {F} s.

(** Lines 52-73.  [listdir] is what the folder holds, read with the given
    comment character and delimiter.  An exception of [_calcStacked]
    escapes the constructor: no object is returned. *)
Definition __init__ {F} `{Scalar F}
  (folder : string) (case_name : option string) (header : bool)
  (sep comments : string) (ref_lines : list (F * option string))
  (ref_colors ref_styles : option (list string))
  (listdir : list (dir_entry F)) : outcome (self F) :=
  let 'Build_run _ errs tbl exc := _calcStacked listdir in
  match exc with
  | Some e => Raise e
  | None =>
      Ret {| folder := folder;
             case_name := match case_name with
                          | None => folder
                          | Some c => c
                          end;
             header := header;
             sep := sep;
             comments := comments;
             ref_lines := ref_lines;
             ref_colors := match ref_colors with
                           | None => ["red"; "blue"; "green"; "orange"]%string
                           | Some c => c
                           end;
             ref_styles := match ref_styles with
                           | None => ["-"; "--"; "-."; ":"]%string
                           | Some s => s
                           end;
             error_files := errs;
             stacked := tbl |}
  end.

(** What a matplotlib call is made on: [plt], [axs[i]] or [fig]. *)
Inductive target : Type := plt | axs (i : nat) | fig.

Inductive call (F : Type) : Type :=
| mpl_figure
| mpl_subplots
| mpl_plot (on : target) (x y : list F) (label : option string)
| mpl_axvline (on : target) (x : F) (color linestyle : string) (label : option string)
| mpl_title (on : target) (text : string)
| mpl_xlabel (on : target) (text : string)
| mpl_ylabel (on : target) (text : string)
| mpl_legend (on : target)
| mpl_tight_layout
| mpl_show (on : target)
| mpl_savefig (path : string).
Arguments mpl_figure {F}.
Arguments mpl_subplots {F}.
Arguments mpl_plot {F} on x y label.
Arguments mpl_axvline {F} on x color linestyle label.
Arguments mpl_title {F} on text.
Arguments mpl_xlabel {F} on text.
Arguments mpl_ylabel {F} on text.
Arguments mpl_legend {F} on.
Arguments mpl_tight_layout {F}.
Arguments mpl_show {F} on.
Arguments mpl_savefig {F} path.

(** Drawing code: the calls made so far, and a value or the exception that
    stopped it. *)
Definition draw (F A : Type) : Type := list (call F) * outcome A.

Definition dret {F A} (a : A) : draw F A := ([], Ret a).

Definition dbind {F A B} (m : draw F A) (k : A -> draw F B) : draw F B :=
  match m with
  | (t, Ret a) => let (t', r) := k a in (t ++ t', r)
  | (t, Raise e) => (t, Raise e)
  end.

Definition emit {F} (c : call F) : draw F unit := ([c], Ret tt).
Definition try_eval {F A} (m : outcome A) : draw F A := ([], m).

Notation "x <@ m ;; k" := (dbind m (fun x => k))
  (at level 61, m at next level, right associativity).

(** Statements one after the other, up to the first that raises. *)
Fixpoint steps {F} (body : list (draw F unit)) : draw F unit :=
  match body with
  | [] => dret tt
  | m :: rest => dbind m (fun _ => steps rest)
  end.

(** [a % b] on non-negative integers. *)
Definition pymod (a b : nat) : outcome nat :=
  match b with
  | 0 => Raise (Exn "ZeroDivisionError" "integer modulo by zero")
  | _ => Ret (a mod b)
  end.

(** [self.stacked[:, k]]. *)
Definition stacked_column {F} `{Scalar F} (s : self F) (k : nat) : outcome (list F) :=
  match stacked s with
  | Some a => column k a
  | None => Raise (TypeError "'NoneType' object is not subscriptable")
  end.

(** The loop over [self.ref_lines] (lines 110-117, 133-140 and 146-153):
    one vertical line per reference line, colour and style taken in turn
    from the two lists; [labelled] tells whether the line carries
    [refline[1]] or [None] as its label. *)
Fixpoint ref_loop {F} (on : target) (labelled : bool)
  (colors styles : list string) (lines : list (F * option string))
  (mark_count : nat) : draw F unit :=
  match lines with
  | [] => dret tt
  | refline :: rest =>
      steps
        [ c_idx <@ try_eval (pymod mark_count (length colors)) ;;
          s_idx <@ try_eval (pymod mark_count (length styles)) ;;
          emit (mpl_axvline on (fst refline)
                  (nth c_idx colors EmptyString) (nth s_idx styles EmptyString)
                  (if labelled then snd refline else None));
          ref_loop on labelled colors styles rest (S mark_count) ]
  end.

Definition when {F} (b : bool) (m : draw F unit) : draw F unit :=
  if b then m else dret tt.

(** Lines 102-161, when matplotlib returns from every call. *)
Definition plot {F} `{Scalar F} (s : self F) (showfig savefig combined : bool)
  : draw F unit :=
  if combined then
    steps
      [ emit mpl_figure;
        x <@ try_eval (stacked_column s 0) ;;
        y <@ try_eval (stacked_column s 1) ;;
        emit (mpl_plot plt x y (Some "AND operation"%string));
        x <@ try_eval (stacked_column s 0) ;;
        y <@ try_eval (stacked_column s 2) ;;
        emit (mpl_plot plt x y (Some "OR operation"%string));
        ref_loop plt true (ref_colors s) (ref_styles s) (ref_lines s) 0;
        emit (mpl_title plt (case_name s ++ " Stacked periodograms")%string);
        emit (mpl_xlabel plt "Frequency");
        emit (mpl_ylabel plt "Normalized power");
        emit (mpl_legend plt);
        when showfig (emit (mpl_show plt));
        when savefig
          (emit (mpl_savefig (folder s ++ case_name s ++ "_StackedPG_Combined.jpg")%string)) ]
  else
    steps
      [ emit mpl_subplots;
        emit (mpl_title fig (case_name s ++ " Stacked periodograms")%string);
        x <@ try_eval (stacked_column s 0) ;;
        y <@ try_eval (stacked_column s 1) ;;
        emit (mpl_plot (axs 0) x y None);
        emit (mpl_title (axs 0) "AND operation");
        emit (mpl_xlabel (axs 0) "Frequency");
        emit (mpl_ylabel (axs 0) "Normalized power");
        ref_loop (axs 0) true (ref_colors s) (ref_styles s) (ref_lines s) 0;
        x <@ try_eval (stacked_column s 0) ;;
        y <@ try_eval (stacked_column s 2) ;;
        emit (mpl_plot (axs 1) x y None);
        emit (mpl_title (axs 1) "OR operation");
        emit (mpl_xlabel (axs 1) "Frequency");
        emit (mpl_ylabel (axs 1) "Normalized power");
        ref_loop (axs 1) false (ref_colors s) (ref_styles s) (ref_lines s) 0;
        emit mpl_tight_layout;
        emit (mpl_legend fig);
        when showfig (emit (mpl_show fig));
        when savefig
          (emit (mpl_savefig (folder s ++ case_name s ++ "_StackedPG_Separate.jpg")%string)) ].

(** The vertical lines a trace draws on one target. *)
Definition same_target (a b : target) : bool :=
  match a, b with
  | plt, plt => true
  | fig, fig => true
  | axs i, axs j => i =? j
  | _, _ => false
  end.

Definition axvlines_on {F} (on : target) (trace : list (call F))
  : list (F * string * string * option string) :=
  flat_map (fun c => match c with
                     | mpl_axvline t x col sty lab =>
                         if same_target t on then [(x, col, sty, lab)] else []
                     | _ => []
                     end) trace.

(** The files a trace saves, and whether it shows the figure. *)
Definition saved_files {F} (trace : list (call F)) : list string :=
  flat_map (fun c => match c with mpl_savefig p => [p] | _ => [] end) trace.

Definition shown {F} (trace : list (call F)) : bool :=
  existsb (fun c => match c with mpl_show _ => true | _ => false end) trace.

(** The line the loop draws for the [i]-th reference line. *)
Definition styled {F} (colors styles : list string) (labelled : bool)
  (i : nat) (refline : F * option string) : F * string * string * option string :=
  (fst refline,
   nth (i mod length colors) colors EmptyString,
   nth (i mod length styles) styles EmptyString,
   if labelled then snd refline else None).

Definition axvline_of {F} (on : target)
  (q : F * string * string * option string) : call F :=
  let '(x, col, sty, lab) := q in mpl_axvline on x col sty lab.

Fixpoint styled_from {F} (colors styles : list string) (labelled : bool)
  (i : nat) (lines : list (F * option string)) :=
  match lines with
  | [] => []
  | refline :: rest =>
      styled colors styles labelled i refline ::
      styled_from colors styles labelled (S i) rest
  end.

(** matplotlib's side of a call: it returns, or it raises.  A backend tells
    which, for a call and the calls made before it. *)
Definition backend (F : Type) : Type := list (call F) -> call F -> outcome unit.

(** Drawing code run against a backend: from the calls made so far to the
    calls made when it stops - the last one being the call that raised, if
    one did - with a value or the exception that stopped it. *)
Definition script (F A : Type) : Type := list (call F) -> list (call F) * outcome A.

Definition script_ret {F A} (a : A) : script F A := fun h => (h, Ret a).

Definition script_bind {F A B} (m : script F A) (k : A -> script F B) : script F B :=
  fun h => match m h with
           | (h', Ret a) => k a h'
           | (h', Raise e) => (h', Raise e)
           end.

Definition invoke {F} (mpl : backend F) (c : call F) : script F unit :=
  fun h => (h ++ [c], mpl h c).

Definition compute {F A} (m : outcome A) : script F A := fun h => (h, m).

Notation "x <! m ;; k" := (script_bind m (fun x => k))
  (at level 61, m at next level, right associativity).

(** Statements one after the other, up to the first that raises. *)
Fixpoint in_turn {F} (body : list (script F unit)) : script F unit :=
  match body with
  | [] => script_ret tt
  | m :: rest => script_bind m (fun _ => in_turn rest)
  end.

(** The loop over [self.ref_lines], as [ref_loop]. *)
Fixpoint ref_loop_with {F} (mpl : backend F) (on : target) (labelled : bool)
  (colors styles : list string) (lines : list (F * option string))
  (mark_count : nat) : script F unit :=
  match lines with
  | [] => script_ret tt
  | refline :: rest =>
      in_turn
        [ c_idx <! compute (pymod mark_count (length colors)) ;;
          s_idx <! compute (pymod mark_count (length styles)) ;;
          invoke mpl (mpl_axvline on (fst refline)
                        (nth c_idx colors EmptyString) (nth s_idx styles EmptyString)
                        (if labelled then snd refline else None));
          ref_loop_with mpl on labelled colors styles rest (S mark_count) ]
  end.

Definition only_if {F} (b : bool) (m : script F unit) : script F unit :=
  if b then m else script_ret tt.

(** Lines 102-161 against a backend.  Nothing in [plot] catches an
    exception: the first call that raises ends it. *)
Definition plot_with {F} `{Scalar F} (mpl : backend F) (s : self F)
  (showfig savefig combined : bool) : script F unit :=
  if combined then
    in_turn
      [ invoke mpl mpl_figure;
        x <! compute (stacked_column s 0) ;;
        y <! compute (stacked_column s 1) ;;
        invoke mpl (mpl_plot plt x y (Some "AND operation"%string));
        x <! compute (stacked_column s 0) ;;
        y <! compute (stacked_column s 2) ;;
        invoke mpl (mpl_plot plt x y (Some "OR operation"%string));
        ref_loop_with mpl plt true (ref_colors s) (ref_styles s) (ref_lines s) 0;
        invoke mpl (mpl_title plt (case_name s ++ " Stacked periodograms")%string);
        invoke mpl (mpl_xlabel plt "Frequency");
        invoke mpl (mpl_ylabel plt "Normalized power");
        invoke mpl (mpl_legend plt);
        only_if showfig (invoke mpl (mpl_show plt));
        only_if savefig
          (invoke mpl (mpl_savefig (folder s ++ case_name s ++ "_StackedPG_Combined.jpg")%string)) ]
  else
    in_turn
      [ invoke mpl mpl_subplots;
        invoke mpl (mpl_title fig (case_name s ++ " Stacked periodograms")%string);
        x <! compute (stacked_column s 0) ;;
        y <! compute (stacked_column s 1) ;;
        invoke mpl (mpl_plot (axs 0) x y None);
        invoke mpl (mpl_title (axs 0) "AND operation");
        invoke mpl (mpl_xlabel (axs 0) "Frequency");
        invoke mpl (mpl_ylabel (axs 0) "Normalized power");
        ref_loop_with mpl (axs 0) true (ref_colors s) (ref_styles s) (ref_lines s) 0;
        x <! compute (stacked_column s 0) ;;
        y <! compute (stacked_column s 2) ;;
        invoke mpl (mpl_plot (axs 1) x y None);
        invoke mpl (mpl_title (axs 1) "OR operation");
        invoke mpl (mpl_xlabel (axs 1) "Frequency");
        invoke mpl (mpl_ylabel (axs 1) "Normalized power");
        ref_loop_with mpl (axs 1) false (ref_colors s) (ref_styles s) (ref_lines s) 0;
        invoke mpl mpl_tight_layout;
        invoke mpl (mpl_legend fig);
        only_if showfig (invoke mpl (mpl_show fig));
        only_if savefig
          (invoke mpl (mpl_savefig (folder s ++ case_name s ++ "_StackedPG_Separate.jpg")%string)) ].

(** Calls made one after the other, up to the first that raises. *)
Fixpoint invoke_all {F} (mpl : backend F) (cs : list (call F)) : script F unit :=
  match cs with
  | [] => script_ret tt
  | c :: rest => script_bind (invoke mpl c) (fun _ => invoke_all mpl rest)
  end.

(** The calls [plot] makes on a table, in order, when none of them
    raises. *)
Definition plot_calls {F} `{Scalar F} (s : self F) (rows : list (list F))
  (showfig savefig combined : bool) : list (call F) :=
  let col k := map (fun r => nth k r szero) rows in
  let lines on lab :=
    map (axvline_of on) (styled_from (ref_colors s) (ref_styles s) lab 0 (ref_lines s)) in
  if combined then
    [mpl_figure;
     mpl_plot plt (col 0) (col 1) (Some "AND operation"%string);
     mpl_plot plt (col 0) (col 2) (Some "OR operation"%string)] ++
    lines plt true ++
    [mpl_title plt (case_name s ++ " Stacked periodograms")%string;
     mpl_xlabel plt "Frequency"; mpl_ylabel plt "Normalized power";
     mpl_legend plt] ++
    (if showfig then [mpl_show plt] else []) ++
    (if savefig
     then [mpl_savefig (folder s ++ case_name s ++ "_StackedPG_Combined.jpg")%string]
     else [])
  else
    [mpl_subplots;
     mpl_title fig (case_name s ++ " Stacked periodograms")%string;
     mpl_plot (axs 0) (col 0) (col 1) None;
     mpl_title (axs 0) "AND operation";
     mpl_xlabel (axs 0) "Frequency"; mpl_ylabel (axs 0) "Normalized power"] ++
    lines (axs 0) true ++
    [mpl_plot (axs 1) (col 0) (col 2) None;
     mpl_title (axs 1) "OR operation";
     mpl_xlabel (axs 1) "Frequency"; mpl_ylabel (axs 1) "Normalized power"] ++
    lines (axs 1) false ++
    [mpl_tight_layout; mpl_legend fig] ++
    (if showfig then [mpl_show fig] else []) ++
    (if savefig
     then [mpl_savefig (folder s ++ case_name s ++ "_StackedPG_Separate.jpg")%string]
     else []).

End StackedPg.

(** ** Folders used as examples *)

(** A two-column table with frequency column [g] and power column [p], and
    a regular file that parses into it. *)
Definition table {F} (g p : list F) : ndarray F :=
  Arr2 2 (map2 (fun x y => [x; y]) g p).

Definition pg_file {F} (n : string) (g p : list F) : dir_entry F :=
  {| name := n; isfile := true; genfromtxt := Ret (table g p) |}.

(** A regular file on which [np.genfromtxt] raises. *)
Definition bad_file {F} (n : string) (e : exn) : dir_entry F :=
  {| name := n; isfile := true; genfromtxt := Raise e |}.

(** A file of a single row: [np.genfromtxt] returns it as a vector. *)
Definition one_row_file {F} (n : string) (row : list F) : dir_entry F :=
  {| name := n; isfile := true; genfromtxt := Ret (Arr1 row) |}.

Definition some_parse_error : exn :=
  ValueError "Some errors were detected !".

(** The scenario of the specification: three files over the grid
    [1, 2, 3]. *)
Definition grid123 : list float := [1; 2; 3]%float.

Definition scenario : list (dir_entry float) :=
  [ pg_file "pg1.dat" grid123 [1; 1; 1]%float;
    pg_file "pg2.dat" grid123 [2; 2; 2]%float;
    pg_file "pg3.dat" grid123 [0; 0; 4]%float ].

(** One file over the grid [0, 1, 2] with powers [2, 3, 4]. *)
Definition grid012 : list float := [0; 1; 2]%float.
Definition power234 : list float := [2; 3; 4]%float.

(** A folder with a file that does not parse between two that do, and one
    whose row count differs from the grid. *)
Definition mixed_folder : list (dir_entry float) :=
  [ pg_file "a.dat" grid012 power234;
    bad_file "notes.txt" some_parse_error;
    pg_file "short.dat" [0; 1]%float [2; 3]%float;
    pg_file "b.dat" grid012 [1; 1; 1]%float ].

(** A file whose power column integrates to zero. *)
Definition flat_zero : dir_entry float := pg_file "zero.dat" grid012 [0; 0; 0]%float.

(** An object built on the scenario with three reference lines, the
    default colours and a single style; and the same with no colour. *)
Definition three_lines : list (float * option string) :=
  [(1.5%float, Some "a"%string); (2.5%float, None); (3%float, Some "c"%string)].

Definition scenario_table : ndarray float :=
  Arr2 3 [[1; 0; 1 / 3]; [2; 0; 1 / 3]; [3; 2; 1]]%float.

Definition scenario_object (colors : list string) : StackedPg.self float :=
  {| StackedPg.folder := "pg/";
     StackedPg.case_name := "pg/";
     StackedPg.header := false;
     StackedPg.sep := " ";
     StackedPg.comments := "#";
     StackedPg.ref_lines := three_lines;
     StackedPg.ref_colors := colors;
     StackedPg.ref_styles := ["-"%string];
     StackedPg.error_files := [];
     StackedPg.stacked := Some scenario_table |}.

(** A file with a NaN among its powers: what [np.genfromtxt] returns, without
    raising, on a file whose second row holds text where the power should
    be. *)
Definition nan_file : dir_entry float :=
  pg_file "gap.dat" grid012 [1; nan; 1]%float.


(** Three files over a grid of spacing 2^-520: two with all their power at
    the first frequency, one with almost none there. *)
Definition tiny_grid : list float := [0; 0x1p-520; 0x1p-519]%float.

(** A backend on which [plt.savefig] finds no directory to write into, and
    every other call returns. *)
Definition no_such_directory : StackedPg.backend float :=
  fun _ c =>
    match c with
    | StackedPg.mpl_savefig p =>
        Raise (Exn "FileNotFoundError"
                 ("[Errno 2] No such file or directory: '" ++ p ++ "'")%string)
    | _ => Ret tt
    end.

(** * Properties *)

Section Generic.

Context {F : Type} {SF : Scalar F}.

(** ** Lists and arrays *)

Lemma map2_length {A B C} (f : A -> B -> C) (a : list A) (b : list B) :
  length (map2 f a b) = Nat.min (length a) (length b).
Proof.
  revert b; induction a as [|x a IH]; intros [|y b]; simpl; auto.
Qed.

Lemma tl_length {A} (l : list A) : length (tl l) = length l - 1.
Proof. destruct l; simpl; lia. Qed.

Lemma removelast_length' {A} (l : list A) : length (removelast l) = length l - 1.
Proof.
  induction l as [|x [|y l] IH]; simpl in *; auto. lia.
Qed.

Lemma diff_length (x : list F) : length (diff x) = length x - 1.
Proof.
  unfold diff. rewrite map2_length, tl_length, removelast_length'. lia.
Qed.

Lemma pair_sums_length (y : list F) : length (pair_sums y) = length y - 1.
Proof.
  unfold pair_sums. rewrite map2_length, tl_length, removelast_length'. lia.
Qed.

Lemma div_by_length (t : F) (a : list F) : length (div_by t a) = length a.
Proof. apply length_map. Qed.

Lemma map2_nth {A B C} (f : A -> B -> C) (a : list A) (b : list B) i da db dc :
  i < length a -> i < length b ->
  nth i (map2 f a b) dc = f (nth i a da) (nth i b db).
Proof.
  revert b i; induction a as [|x a IH]; intros [|y b] [|i]; simpl; intros; try lia; auto.
  apply IH; lia.
Qed.

Lemma broadcast_same_length (op : F -> F -> F) (a b : list F) :
  length a = length b -> broadcast op a b = Ret (map2 op a b).
Proof.
  intros E. unfold broadcast. rewrite E, Nat.eqb_refl. reflexivity.
Qed.

(** On arrays of one length [np.trapz] is the trapezoidal formula. *)
Lemma trapz_trapezoid (y x : list F) :
  length y = length x -> trapz y x = Ret (trapezoid y x).
Proof.
  intros E. unfold trapz, trapezoid.
  rewrite broadcast_same_length; [reflexivity|].
  rewrite diff_length, pair_sums_length. lia.
Qed.

Lemma rows3_length (g a o : list F) :
  length g = length a -> length a = length o -> length (rows3 g a o) = length g.
Proof.
  revert a o; induction g as [|x g IH]; intros [|y a] [|z o]; simpl; intros; try lia; auto.
Qed.

Lemma rows3_nth (g a o : list F) i d :
  length g = length a -> length a = length o -> i < length g ->
  nth i (rows3 g a o) [] = [nth i g d; nth i a d; nth i o d].
Proof.
  revert a o i; induction g as [|x g IH]; intros [|y a] [|z o] [|i]; simpl; intros; try lia; auto.
  apply IH; lia.
Qed.

Lemma rows3_col (g a o : list F) :
  length g = length a -> length a = length o ->
  map (fun row => nth 0 row szero) (rows3 g a o) = g /\
  map (fun row => nth 1 row szero) (rows3 g a o) = a /\
  map (fun row => nth 2 row szero) (rows3 g a o) = o.
Proof.
  revert a o; induction g as [|x g IH]; intros [|y a] [|z o]; simpl; intros; try lia; auto.
  destruct (IH a o) as (-> & -> & ->); auto.
Qed.

(** ** One file *)

Lemma column_length k c (rows : list (list F)) v :
  column k (Arr2 c rows) = Ret v -> length v = length rows.
Proof.
  simpl. destruct (k <? c); [|discriminate].
  intros [= <-]. apply length_map.
Qed.

Lemma freq_col_length c (rows : list (list F)) :
  length (freq_col (Arr2 c rows)) = length rows.
Proof. apply length_map. Qed.

Lemma power_col_length c (rows : list (list F)) :
  length (power_col (Arr2 c rows)) = length rows.
Proof. apply length_map. Qed.

Lemma normalized_length c (rows : list (list F)) :
  length (normalized (Arr2 c rows)) = length rows.
Proof. unfold normalized. rewrite div_by_length. apply power_col_length. Qed.

(** Line 86 on a matrix with at least two columns never raises. *)
Lemma normalize_table c (rows : list (list F)) :
  2 <= c ->
  normalize (Arr2 c rows) = Ret (freq_col (Arr2 c rows), normalized (Arr2 c rows)).
Proof.
  intros Hc. unfold normalize. simpl column.
  assert (E1 : (1 <? c) = true) by (apply Nat.ltb_lt; lia).
  assert (E0 : (0 <? c) = true) by (apply Nat.ltb_lt; lia).
  rewrite E1, E0. simpl obind.
  rewrite trapz_trapezoid by (rewrite !length_map; reflexivity).
  reflexivity.
Qed.

(** Line 86 raises on anything else. *)
Lemma normalize_ret (a : ndarray F) x p :
  normalize a = Ret (x, p) ->
  exists c rows, a = Arr2 c rows /\ 2 <= c /\
    x = freq_col a /\ p = normalized a.
Proof.
  destruct a as [v|v|c rows]; try discriminate.
  destruct (le_lt_dec 2 c) as [Hc|Hc].
  - rewrite normalize_table by assumption. intros [= <- <-]. eauto 6.
  - unfold normalize. simpl column.
    assert (E1 : (1 <? c) = false) by (apply Nat.ltb_ge; lia).
    rewrite E1. discriminate.
Qed.

(** ** The [try] block *)

Lemma try_body_eq (f : dir_entry F) (l : locals F) :
  try_body f l =
  match genfromtxt f with
  | Raise e => (Raise e, l)
  | Ret new_pg =>
      match normalize new_pg with
      | Raise e => (Raise e, l)
      | Ret (x, p) =>
          match frecs l with
          | None =>
              (Ret tt, {| frecs := Some x; stacked_and := Some p; stacked_or := Some p |})
          | Some _ =>
              match ufunc smul (stacked_and l) p with
              | Raise e => (Raise e, l)
              | Ret a =>
                  match ufunc sadd (stacked_or l) p with
                  | Raise e => (Raise e, set_and a l)
                  | Ret o => (Ret tt, set_or o (set_and a l))
                  end
              end
          end
      end
  end.
Proof.
  unfold try_body, sbind, eval, read, assign.
  destruct (genfromtxt f) as [new_pg|e]; [|reflexivity].
  destruct (normalize new_pg) as [[x p]|e]; [|reflexivity].
  destruct (frecs l); [|reflexivity].
  destruct (ufunc smul (stacked_and l) p); [|reflexivity].
  simpl. destruct (ufunc sadd (stacked_or l) p); reflexivity.
Qed.

(** Broadcasting looks only at the two lengths: where one ufunc combines
    [a] with [b], any ufunc combines an array as long as [a] with [b], into
    an array of the same length. *)
Lemma broadcast_shape (op op' : F -> F -> F) (a a' b r : list F) :
  length a = length a' ->
  broadcast op a b = Ret r ->
  exists r', broadcast op' a' b = Ret r' /\ length r' = length r.
Proof.
  intros E. unfold broadcast. rewrite <- E.
  destruct (length a =? length b) eqn:Eab.
  - intros [= <-]. eexists; split; [reflexivity|].
    rewrite !map2_length. lia.
  - destruct a as [|x [|x' a]]; destruct a' as [|y [|y' a']]; try discriminate E.
    + destruct b as [|z [|z' b]]; try discriminate.
      intros [= <-]. eexists; split; [reflexivity|]. reflexivity.
    + intros [= <-]. eexists; split; [reflexivity|]. rewrite !length_map. reflexivity.
    + destruct b as [|z [|z' b]]; try discriminate.
      intros [= <-]. eexists; split; [reflexivity|]. simpl in *. rewrite !length_map. lia.
Qed.

(** A curve of at least two points combines only with a curve of the same
    length when that one too has at least two points or none. *)
Lemma broadcast_length (op : F -> F -> F) (a b r : list F) :
  2 <= length a -> length b <> 1 ->
  broadcast op a b = Ret r -> length b = length a /\ length r = length a.
Proof.
  intros Ha Hb. unfold broadcast.
  destruct (length a =? length b) eqn:Eab.
  - apply Nat.eqb_eq in Eab. intros [= <-]. rewrite map2_length. lia.
  - destruct a as [|x [|x' a]]; simpl in Ha; try lia.
    destruct b as [|z [|z' b]]; simpl in Hb; try lia; discriminate.
Qed.

(** The first file that normalizes sets the three variables. *)
Lemma try_body_first (f : dir_entry F) (l : locals F) c rows :
  genfromtxt f = Ret (Arr2 c rows) -> 2 <= c -> frecs l = None ->
  try_body f l =
  (Ret tt, {| frecs := Some (freq_col (Arr2 c rows));
              stacked_and := Some (normalized (Arr2 c rows));
              stacked_or := Some (normalized (Arr2 c rows)) |}).
Proof.
  intros Hg Hc Hl. rewrite try_body_eq, Hg, normalize_table, Hl by assumption.
  reflexivity.
Qed.

(** Every later file with as many rows as the accumulators multiplies into
    [stacked_and] and adds into [stacked_or]. *)
Lemma try_body_next (f : dir_entry F) g a o c rows :
  genfromtxt f = Ret (Arr2 c rows) -> 2 <= c ->
  length a = length rows -> length o = length rows ->
  try_body f {| frecs := Some g; stacked_and := Some a; stacked_or := Some o |} =
  (Ret tt, {| frecs := Some g;
              stacked_and := Some (map2 smul a (normalized (Arr2 c rows)));
              stacked_or := Some (map2 sadd o (normalized (Arr2 c rows))) |}).
Proof.
  intros Hg Hc Ha Ho. rewrite try_body_eq, Hg, normalize_table by assumption.
  simpl. rewrite !broadcast_same_length by (rewrite normalized_length; assumption).
  reflexivity.
Qed.

(** An exception leaves the local variables as they were. *)
Lemma try_body_raise (f : dir_entry F) (l l' : locals F) e :
  aligned l -> try_body f l = (Raise e, l') -> l' = l.
Proof.
  intros Hal. rewrite try_body_eq.
  destruct (genfromtxt f) as [new_pg|e0]; [|now intros [= _ <-]].
  destruct (normalize new_pg) as [[x p]|e0]; [|now intros [= _ <-]].
  unfold aligned in Hal.
  destruct l as [[g|] [a|] [o|]]; simpl in *; try contradiction; try discriminate.
  destruct (broadcast smul a p) as [r|e0] eqn:Ea; [|now intros [= _ <-]].
  destruct (broadcast_shape smul sadd a o p r Hal Ea) as (r' & -> & _).
  discriminate.
Qed.

Lemma try_body_aligned (f : dir_entry F) (l : locals F) :
  aligned l -> aligned (snd (try_body f l)).
Proof.
  intros Hal. rewrite try_body_eq.
  destruct (genfromtxt f) as [new_pg|e0]; [|exact Hal].
  destruct (normalize new_pg) as [[x p]|e0]; [|exact Hal].
  pose proof Hal as Hal'. unfold aligned in Hal'.
  destruct l as [[g|] [a|] [o|]]; simpl in *; try contradiction; try exact I.
  - destruct (broadcast smul a p) as [r|e0] eqn:Ea; [|exact Hal].
    destruct (broadcast_shape smul sadd a o p r Hal' Ea) as (r' & -> & Hr).
    unfold aligned; simpl. auto.
  - unfold aligned; simpl. reflexivity.
Qed.

Lemma try_body_same_length (f : dir_entry F) (l : locals F) :
  from_genfromtxt f -> same_length l -> same_length (snd (try_body f l)).
Proof.
  intros Hf Hsl. rewrite try_body_eq. unfold from_genfromtxt in Hf.
  destruct (genfromtxt f) as [new_pg|e0]; [|exact Hsl].
  destruct (normalize new_pg) as [[x p]|e0] eqn:Hn; [|exact Hsl].
  apply normalize_ret in Hn. destruct Hn as (c & rows & -> & Hc & -> & ->).
  destruct Hf as [_ Hrows].
  pose proof Hsl as Hsl'. unfold same_length in Hsl'.
  destruct l as [[g|] [a|] [o|]]; simpl in *; try contradiction.
  - destruct Hsl' as (Hg & Hga & Hao).
    destruct (broadcast smul a _) as [r|e0] eqn:Ea; [|exact Hsl].
    apply broadcast_length in Ea;
      [|lia|rewrite normalized_length; lia].
    destruct Ea as [Ep Er].
    destruct (broadcast sadd o _) as [r'|e0] eqn:Eo.
    + apply broadcast_length in Eo; [|lia|rewrite normalized_length; lia].
      unfold same_length; simpl. lia.
    + unfold same_length; simpl. lia.
  - unfold same_length; simpl.
    pose proof (normalized_length c rows) as Hn. simpl in Hn.
    rewrite length_map. lia.
Qed.

(** ** The loop *)

Lemma for_loop_app (l1 l2 : list (dir_entry F)) (st : loop_state F) :
  for_loop (l1 ++ l2) st = for_loop l2 (for_loop l1 st).
Proof. apply fold_left_app. Qed.

Lemma for_loop_cons (f : dir_entry F) (fs : list (dir_entry F)) (st : loop_state F) :
  for_loop (f :: fs) st = for_loop fs (iteration st f).
Proof. reflexivity. Qed.

(** The error log is only ever appended to, and what an iteration does to
    the local variables does not depend on it. *)
Lemma iteration_errors (st : loop_state F) (f : dir_entry F) :
  iteration st f =
  {| vars := vars (iteration {| vars := vars st; error_files := [] |} f);
     error_files := error_files st ++
       error_files (iteration {| vars := vars st; error_files := [] |} f) |}.
Proof.
  unfold iteration; simpl.
  destruct (try_body f (vars st)) as [[u|e] l]; simpl.
  - rewrite app_nil_r. reflexivity.
  - reflexivity.
Qed.

Lemma for_loop_errors (files : list (dir_entry F)) (st : loop_state F) :
  for_loop files st =
  {| vars := vars (for_loop files {| vars := vars st; error_files := [] |});
     error_files := error_files st ++ errors_from (vars st) files |}.
Proof.
  unfold errors_from. revert st.
  induction files as [|f fs IH]; intros st.
  - simpl. rewrite app_nil_r. destruct st; reflexivity.
  - rewrite !for_loop_cons.
    rewrite (IH (iteration st f)).
    rewrite (IH (iteration {| vars := vars st; error_files := [] |} f)).
    rewrite (iteration_errors st f). simpl.
    rewrite app_assoc. reflexivity.
Qed.

Lemma iteration_vars (st : loop_state F) (f : dir_entry F) :
  vars (iteration st f) = snd (try_body f (vars st)).
Proof.
  unfold iteration. destruct (try_body f (vars st)) as [[u|e] l]; reflexivity.
Qed.

Lemma for_loop_aligned (files : list (dir_entry F)) (st : loop_state F) :
  aligned (vars st) -> aligned (vars (for_loop files st)).
Proof.
  revert st. induction files as [|f fs IH]; intros st Hal; [exact Hal|].
  rewrite for_loop_cons. apply IH. rewrite iteration_vars.
  now apply try_body_aligned.
Qed.

Lemma for_loop_same_length (files : list (dir_entry F)) (st : loop_state F) :
  Forall from_genfromtxt files ->
  same_length (vars st) -> same_length (vars (for_loop files st)).
Proof.
  intros Hf. revert st.
  induction Hf as [|f fs Hf _ IH]; intros st Hsl; [exact Hsl|].
  rewrite for_loop_cons. apply IH. rewrite iteration_vars.
  now apply try_body_same_length.
Qed.

(** A file whose [np.genfromtxt] raises is one more entry of the error log
    and nothing else. *)
Lemma iteration_parse_failure (st : loop_state F) (f : dir_entry F) e :
  genfromtxt f = Raise e ->
  iteration st f =
  {| vars := vars st; error_files := error_files st ++ [(name f, str e)] |}.
Proof.
  intros Hg. unfold iteration. rewrite try_body_eq, Hg. reflexivity.
Qed.

Lemma table_on_length (g : list F) c rows :
  table_on g (Arr2 c rows) -> length rows = length g.
Proof.
  intros [_ <-]. symmetry. apply freq_col_length.
Qed.

(** Files that all parse into tables over one grid: each one multiplies
    into the AND accumulator and adds into the OR accumulator; none is
    logged. *)
Lemma for_loop_tables (g : list F) (files : list (dir_entry F)) (ts : list (ndarray F)) :
  Forall2 (fun f t => parses_to f t /\ table_on g t) files ts ->
  forall a o errs,
  length a = length g -> length o = length g ->
  for_loop files
    {| vars := {| frecs := Some g; stacked_and := Some a; stacked_or := Some o |};
       error_files := errs |} =
  {| vars := {| frecs := Some g;
                stacked_and := Some (fold_left (map2 smul) (map normalized ts) a);
                stacked_or := Some (fold_left (map2 sadd) (map normalized ts) o) |};
     error_files := errs |}.
Proof.
  induction 1 as [|f t fs ts [[_ Hg] Ht] _ IH]; intros a o errs Ha Ho; [reflexivity|].
  destruct t as [v|v|c rows]; try contradiction.
  pose proof (table_on_length _ _ _ Ht) as Hn. destruct Ht as [Hc _].
  rewrite for_loop_cons. unfold iteration. simpl vars.
  rewrite (try_body_next f g a o c rows Hg Hc) by lia. simpl error_files.
  simpl map. simpl fold_left.
  apply IH; rewrite map2_length, normalized_length; lia.
Qed.

(** The accumulators read at one grid index. *)
Lemma fold_map2_length (op : F -> F -> F) (vs : list (list F)) (a : list F) n :
  length a = n -> Forall (fun v => length v = n) vs ->
  length (fold_left (map2 op) vs a) = n.
Proof.
  intros Ha Hvs. revert a Ha.
  induction Hvs as [|v vs Hv _ IH]; intros a Ha; [exact Ha|].
  simpl. apply IH. rewrite map2_length. lia.
Qed.

Lemma fold_map2_nth (op : F -> F -> F) (vs : list (list F)) (a : list F) n i d :
  length a = n -> Forall (fun v => length v = n) vs -> i < n ->
  nth i (fold_left (map2 op) vs a) d =
  fold_left op (map (fun v => nth i v d) vs) (nth i a d).
Proof.
  intros Ha Hvs Hi. revert a Ha.
  induction Hvs as [|v vs Hv _ IH]; intros a Ha; [reflexivity|].
  simpl. rewrite IH by (rewrite map2_length; lia).
  rewrite (map2_nth op a v i d d d) by lia. reflexivity.
Qed.

Lemma tables_lengths (g : list F) (files : list (dir_entry F)) (ts : list (ndarray F)) :
  Forall2 (fun f t => parses_to f t /\ table_on g t) files ts ->
  Forall (fun v => length v = length g) (map normalized ts).
Proof.
  induction 1 as [|f t fs ts [_ Ht] _ IH]; simpl; constructor; auto.
  destruct t as [v|v|c rows]; try contradiction.
  rewrite normalized_length. eapply table_on_length; eassumption.
Qed.

Lemma tables_are_files (g : list F) (files : list (dir_entry F)) (ts : list (ndarray F)) :
  Forall2 (fun f t => parses_to f t /\ table_on g t) files ts ->
  pg_files_of files = files.
Proof.
  induction 1 as [|f t fs ts [[Hf _] _] _ IH]; [reflexivity|].
  unfold pg_files_of in *. simpl. rewrite Hf, IH. reflexivity.
Qed.

(** ** Lines 96-100 *)

Lemma finalize_set (g a o : list F) :
  length g = length a -> length a = length o ->
  finalize {| frecs := Some g; stacked_and := Some a; stacked_or := Some o |} =
  Ret (Arr2 3 (rows3 g (div_by (trapezoid a g) a) (div_by (trapezoid o g) o))).
Proof.
  intros Hga Hao. unfold finalize. simpl.
  rewrite !trapz_trapezoid by lia. simpl.
  unfold vstackT. rewrite !div_by_length.
  rewrite (proj2 (Nat.eqb_eq _ _) Hga), (proj2 (Nat.eqb_eq _ _) Hao).
  reflexivity.
Qed.

Lemma finalize_unset (l : locals F) :
  stacked_and l = None ->
  finalize l = Raise (IndexError "list assignment index out of range").
Proof.
  intros Hl. unfold finalize. rewrite Hl. reflexivity.
Qed.

(** The run over files that all parse into tables over one grid. *)
Lemma run_tables (g : list F) f0 fs t0 ts :
  parses_to f0 t0 -> table_on g t0 ->
  Forall2 (fun f t => parses_to f t /\ table_on g t) fs ts ->
  _calcStacked (f0 :: fs) =
  {| run_error_files := [];
     stacked := Some (Arr2 3 (rows3 g
       (div_by (trapezoid (and_curve t0 ts) g) (and_curve t0 ts))
       (div_by (trapezoid (or_curve t0 ts) g) (or_curve t0 ts))));
     raised := None |} /\
  length (and_curve t0 ts) = length g /\
  length (or_curve t0 ts) = length g.
Proof.
  intros [Hf0 Hg0] Ht0 Hfs.
  destruct t0 as [v|v|c rows]; try contradiction.
  pose proof (table_on_length _ _ _ Ht0) as Hn.
  assert (Hnorm : length (normalized (Arr2 c rows)) = length g)
    by (rewrite normalized_length; exact Hn).
  pose proof (tables_lengths _ _ _ Hfs) as Hls.
  assert (Hand : length (and_curve (Arr2 c rows) ts) = length g)
    by (apply fold_map2_length; assumption).
  assert (Hor : length (or_curve (Arr2 c rows) ts) = length g)
    by (apply fold_map2_length; assumption).
  split; [|split; assumption].
  unfold _calcStacked.
  assert (Hpg : pg_files_of (f0 :: fs) = f0 :: fs).
  { unfold pg_files_of. simpl. rewrite Hf0. f_equal.
    exact (tables_are_files _ _ _ Hfs). }
  rewrite Hpg, for_loop_cons. unfold iteration. simpl vars.
  destruct Ht0 as [Hc Hgrid].
  rewrite (try_body_first f0 locals0 c rows Hg0 Hc eq_refl). rewrite Hgrid.
  simpl error_files.
  rewrite (for_loop_tables _ _ _ Hfs) by assumption.
  simpl vars. fold (and_curve (Arr2 c rows) ts). fold (or_curve (Arr2 c rows) ts).
  rewrite finalize_set by lia. reflexivity.
Qed.

(** The same run, column by column. *)
Lemma run_tables_columns (g : list F) f0 fs t0 ts :
  parses_to f0 t0 -> table_on g t0 ->
  Forall2 (fun f t => parses_to f t /\ table_on g t) fs ts ->
  let r := _calcStacked (f0 :: fs) in
  raised r = None /\ run_error_files r = [] /\
  result_col 0 r = g /\
  result_col 1 r = div_by (trapezoid (and_curve t0 ts) g) (and_curve t0 ts) /\
  result_col 2 r = div_by (trapezoid (or_curve t0 ts) g) (or_curve t0 ts).
Proof.
  intros Hf0 Ht0 Hfs r.
  destruct (run_tables g f0 fs t0 ts Hf0 Ht0 Hfs) as (Hrun & Hand & Hor).
  subst r. rewrite Hrun. unfold result_col. simpl.
  destruct (rows3_col g (div_by (trapezoid (and_curve t0 ts) g) (and_curve t0 ts))
              (div_by (trapezoid (or_curve t0 ts) g) (or_curve t0 ts)))
    as (E0 & E1 & E2); [rewrite div_by_length; lia|rewrite !div_by_length; lia|].
  auto.
Qed.

(** ** Reading curves pointwise *)

Lemma div_by_nth (t : F) (a : list F) i d :
  i < length a -> nth i (div_by t a) d = nth i a d ./ t.
Proof.
  intros Hi. unfold div_by.
  rewrite (nth_indep _ d (d ./ t)) by (rewrite length_map; exact Hi).
  apply (map_nth (fun v => v ./ t)).
Qed.

Lemma tabulate_nth (a : list F) d :
  map (fun j => nth j a d) (seq 0 (length a)) = a.
Proof.
  apply (nth_ext _ _ d d).
  - rewrite length_map, length_seq. reflexivity.
  - intros i Hi. rewrite length_map, length_seq in Hi.
    rewrite (nth_indep _ d (nth 0 a d)) by (rewrite length_map, length_seq; exact Hi).
    rewrite (map_nth (fun j => nth j a d)).
    rewrite seq_nth by exact Hi. reflexivity.
Qed.

Lemma and_curve_pointwise (g : list F) fs t0 ts :
  table_on g t0 ->
  Forall2 (fun f t => parses_to f t /\ table_on g t) fs ts ->
  and_curve t0 ts = map (fun j => product_at j t0 ts) (seq 0 (length g)) /\
  or_curve t0 ts = map (fun j => sum_at j t0 ts) (seq 0 (length g)).
Proof.
  intros Ht0 Hfs.
  destruct t0 as [v|v|c rows]; try contradiction.
  assert (Hnorm : length (normalized (Arr2 c rows)) = length g).
  { rewrite normalized_length. eapply table_on_length; eassumption. }
  pose proof (tables_lengths _ _ _ Hfs) as Hls.
  pose proof (fold_map2_length smul _ _ _ Hnorm Hls) as Hand.
  pose proof (fold_map2_length sadd _ _ _ Hnorm Hls) as Hor.
  split.
  - etransitivity; [symmetry; apply (tabulate_nth _ szero)|].
    unfold and_curve at 2. rewrite Hand.
    apply map_ext_in. intros j Hj. apply in_seq in Hj.
    unfold and_curve, product_at.
    rewrite (fold_map2_nth smul _ _ (length g) j szero Hnorm Hls) by lia.
    rewrite map_map. reflexivity.
  - etransitivity; [symmetry; apply (tabulate_nth _ szero)|].
    unfold or_curve at 2. rewrite Hor.
    apply map_ext_in. intros j Hj. apply in_seq in Hj.
    unfold or_curve, sum_at.
    rewrite (fold_map2_nth sadd _ _ (length g) j szero Hnorm Hls) by lia.
    rewrite map_map. reflexivity.
Qed.

(** ** Properties that hold in any arithmetic *)

(** C1.  For files that all parse into tables over one and the same
    frequency grid, the run raises nothing and the result table has the grid
    as its first column; its AND column at each grid index [i] is the
    product, over the files in discovery order, of each file's power at [i]
    divided by the trapezoidal integral of that file's power over its
    frequency column, the product then divided by the trapezoidal integral
    over the grid of the curve of these products; its OR column is the same
    with sums for products. *)
Theorem stacked_product_and_sum (g : list F) f0 fs t0 ts :
  parses_to f0 t0 -> table_on g t0 ->
  Forall2 (fun f t => parses_to f t /\ table_on g t) fs ts ->
  let r := _calcStacked (f0 :: fs) in
  let n := length g in
  let and_acc := map (fun j => product_at j t0 ts) (seq 0 n) in
  let or_acc := map (fun j => sum_at j t0 ts) (seq 0 n) in
  raised r = None /\
  result_col 0 r = g /\
  length (result_col 1 r) = n /\
  length (result_col 2 r) = n /\
  forall i, i < n ->
    nth i (result_col 1 r) szero = product_at i t0 ts ./ trapezoid and_acc g /\
    nth i (result_col 2 r) szero = sum_at i t0 ts ./ trapezoid or_acc g.
Proof.
  intros Hf0 Ht0 Hfs r n and_acc or_acc.
  destruct (run_tables g f0 fs t0 ts Hf0 Ht0 Hfs) as (Hrun & Hand & Hor).
  destruct (and_curve_pointwise g fs t0 ts Ht0 Hfs) as [Eand Eor].
  fold n in Eand, Eor. fold and_acc in Eand. fold or_acc in Eor.
  subst r. rewrite Hrun. unfold result_col. simpl stacked.
  destruct (rows3_col g (div_by (trapezoid (and_curve t0 ts) g) (and_curve t0 ts))
              (div_by (trapezoid (or_curve t0 ts) g) (or_curve t0 ts)))
    as (E0 & E1 & E2); [rewrite div_by_length; lia|rewrite !div_by_length; lia|].
  rewrite E0, E1, E2. rewrite !div_by_length.
  repeat split; auto.
  - rewrite div_by_nth by (rewrite Hand; assumption).
    rewrite Eand at 2. f_equal.
    rewrite Eand. unfold and_acc.
    rewrite (nth_indep _ szero (product_at 0 t0 ts))
      by (rewrite length_map, length_seq; assumption).
    rewrite (map_nth (fun j => product_at j t0 ts)).
    rewrite seq_nth by assumption. reflexivity.
  - rewrite div_by_nth by (rewrite Hor; assumption).
    rewrite Eor at 2. f_equal.
    rewrite Eor. unfold or_acc.
    rewrite (nth_indep _ szero (sum_at 0 t0 ts))
      by (rewrite length_map, length_seq; assumption).
    rewrite (map_nth (fun j => sum_at j t0 ts)).
    rewrite seq_nth by assumption. reflexivity.
Qed.

(** C2, as the code has it.  For a run over exactly one file that parses
    into a table, the AND column and the OR column of the result are equal
    to each other, and equal to the normalized curve of the file (power
    divided by the trapezoidal integral of power over frequency) divided
    once more by its own trapezoidal integral over the grid. *)
Theorem single_file_curves (g : list F) f0 t0 :
  parses_to f0 t0 -> table_on g t0 ->
  let r := _calcStacked [f0] in
  result_col 1 r = result_col 2 r /\
  result_col 1 r = div_by (trapezoid (normalized t0) g) (normalized t0).
Proof.
  intros Hf0 Ht0 r.
  destruct (run_tables g f0 [] t0 [] Hf0 Ht0 (Forall2_nil _)) as (Hrun & Hand & Hor).
  unfold and_curve, or_curve in *. simpl in Hrun, Hand, Hor.
  subst r. rewrite Hrun. unfold result_col. simpl stacked.
  destruct (rows3_col g (div_by (trapezoid (normalized t0) g) (normalized t0))
              (div_by (trapezoid (normalized t0) g) (normalized t0)))
    as (E0 & E1 & E2); [rewrite div_by_length; lia|reflexivity|].
  rewrite E1, E2. split; reflexivity.
Qed.

Lemma run_error_files_eq (listdir : list (dir_entry F)) :
  run_error_files (_calcStacked listdir) =
  error_files (for_loop (pg_files_of listdir) loop_state0).
Proof.
  unfold _calcStacked. destruct (finalize _); reflexivity.
Qed.

Lemma pg_files_of_app (l1 l2 : list (dir_entry F)) :
  pg_files_of (l1 ++ l2) = pg_files_of l1 ++ pg_files_of l2.
Proof. apply filter_app. Qed.

Lemma for_loop_none (files : list (dir_entry F)) errs :
  Forall (fun f => loads f = false) files ->
  exists errs',
    for_loop files {| vars := locals0; error_files := errs |} =
    {| vars := locals0; error_files := errs ++ errs' |} /\
    map fst errs' = map name files.
Proof.
  intros Hfs. revert errs.
  induction Hfs as [|f fs Hf _ IH]; intros errs.
  - exists []. rewrite app_nil_r. split; reflexivity.
  - rewrite for_loop_cons. unfold iteration. simpl vars. simpl error_files.
    unfold loads in Hf.
    destruct (try_body f locals0) as [[u|e] l'] eqn:Hb; [discriminate|].
    apply try_body_raise in Hb; [|exact I]. subst l'.
    destruct (IH (errs ++ [(name f, str e)])) as (errs' & -> & Hn).
    exists ((name f, str e) :: errs'). split.
    + rewrite <- app_assoc. reflexivity.
    + simpl. rewrite Hn. reflexivity.
Qed.

(** C6, as the code has it.  If no file loads (the folder is empty, or the
    [try] block of every file raises), the run fails: the exception that
    escapes is the [IndexError] that [np.trapz] raises on the unset
    accumulator at line 97, no result table is stored, and every file is in
    the error log. *)
Theorem no_file_loads (listdir : list (dir_entry F)) :
  Forall (fun f => loads f = false) (pg_files_of listdir) ->
  let r := _calcStacked listdir in
  stacked r = None /\
  raised r = Some (IndexError "list assignment index out of range") /\
  map fst (run_error_files r) = map name (pg_files_of listdir).
Proof.
  intros Hfs r. subst r. unfold _calcStacked.
  destruct (for_loop_none _ [] Hfs) as (errs' & E & Hn).
  unfold loop_state0. rewrite E. simpl vars.
  rewrite finalize_unset by reflexivity. simpl. auto.
Qed.

(** Skipping, for the files on which [np.genfromtxt] raises: such a file is
    appended to the error log with its name and the text of the exception,
    the files after it are processed as before, and the result (table and
    escaping exception) is the one of the run over the folder without that
    file. *)
Theorem parse_failure_is_skipped (l1 l2 : list (dir_entry F)) f e :
  isfile f = true -> genfromtxt f = Raise e ->
  let r := _calcStacked (l1 ++ f :: l2) in
  let r' := _calcStacked (l1 ++ l2) in
  stacked r = stacked r' /\ raised r = raised r' /\
  exists errs2,
    run_error_files r' = run_error_files (_calcStacked l1) ++ errs2 /\
    run_error_files r = run_error_files (_calcStacked l1) ++ (name f, str e) :: errs2.
Proof.
  intros Hf He r r'.
  set (st1 := for_loop (pg_files_of l1) loop_state0).
  assert (E' : for_loop (pg_files_of (l1 ++ l2)) loop_state0 =
               {| vars := vars (for_loop (pg_files_of l2) {| vars := vars st1; error_files := [] |});
                  error_files := error_files st1 ++ errors_from (vars st1) (pg_files_of l2) |}).
  { rewrite pg_files_of_app, for_loop_app. fold st1. apply for_loop_errors. }
  assert (E : for_loop (pg_files_of (l1 ++ f :: l2)) loop_state0 =
              {| vars := vars (for_loop (pg_files_of l2) {| vars := vars st1; error_files := [] |});
                 error_files := error_files st1 ++ (name f, str e) ::
                                errors_from (vars st1) (pg_files_of l2) |}).
  { rewrite pg_files_of_app, for_loop_app. fold st1.
    unfold pg_files_of at 1. simpl filter. rewrite Hf. fold (pg_files_of l2).
    rewrite for_loop_cons, (iteration_parse_failure st1 f e He).
    rewrite for_loop_errors. simpl vars. simpl error_files.
    rewrite <- app_assoc. reflexivity. }
  assert (Hs : stacked r = stacked r' /\ raised r = raised r').
  { subst r r'. unfold _calcStacked. rewrite E, E'. simpl vars.
    destruct (finalize _); split; reflexivity. }
  destruct Hs as [Hs Hr]. split; [exact Hs|]. split; [exact Hr|].
  exists (errors_from (vars st1) (pg_files_of l2)).
  subst r r'. rewrite !run_error_files_eq. fold st1. rewrite E, E'.
  split; reflexivity.
Qed.

Lemma pg_files_from_genfromtxt (listdir : list (dir_entry F)) :
  Forall from_genfromtxt listdir -> Forall from_genfromtxt (pg_files_of listdir).
Proof.
  intros H. apply Forall_forall. intros f Hin.
  apply filter_In in Hin. destruct Hin as [Hin _].
  revert f Hin. apply Forall_forall. exact H.
Qed.

(** C9.  Whatever [np.genfromtxt] returns on the files of the folder,
    after each file processed - folded or logged - the three variables are
    all unset, or all set with [len(frecs) == len(stacked_and) ==
    len(stacked_or)]; and once they are set the run stores a table of three
    columns with one row per grid index, the row at [i] being the frequency,
    the AND value and the OR value at [i], in this order. *)
Theorem accumulators_same_length (listdir : list (dir_entry F)) :
  Forall from_genfromtxt listdir ->
  (forall pre post, pg_files_of listdir = pre ++ post ->
     same_length (vars (for_loop pre loop_state0))) /\
  (forall g, frecs (vars (for_loop (pg_files_of listdir) loop_state0)) = Some g ->
     exists a o rows,
       stacked_and (vars (for_loop (pg_files_of listdir) loop_state0)) = Some a /\
       stacked_or (vars (for_loop (pg_files_of listdir) loop_state0)) = Some o /\
       length g = length a /\ length a = length o /\
       stacked (_calcStacked listdir) = Some (Arr2 3 rows) /\
       length rows = length g /\
       forall i, i < length g ->
         nth i rows [] = [nth i g szero;
                          nth i a szero ./ trapezoid a g;
                          nth i o szero ./ trapezoid o g]).
Proof.
  intros Hwf. apply pg_files_from_genfromtxt in Hwf.
  split.
  - intros pre post E. rewrite E in Hwf. apply Forall_app in Hwf.
    apply for_loop_same_length; [tauto|exact I].
  - intros g Hg.
    pose proof (for_loop_same_length _ loop_state0 Hwf I) as Hsl.
    unfold _calcStacked.
    destruct (vars (for_loop (pg_files_of listdir) loop_state0)) as [g' [a|] [o|]];
      unfold same_length in Hsl; simpl in Hg, Hsl; subst g'; try contradiction.
    destruct Hsl as (Hn & Hga & Hao).
    exists a, o. eexists. rewrite finalize_set by assumption. simpl.
    repeat split; try assumption.
    + apply rows3_length; rewrite ?div_by_length; assumption.
    + intros i Hi.
      rewrite (rows3_nth _ _ _ i szero)
        by (rewrite ?div_by_length; assumption).
      rewrite !div_by_nth by lia. reflexivity.
Qed.

(** C10.  Whatever was processed before, if the [try] block of a file
    raises - in [np.genfromtxt], in the normalization of line 86 or in the
    fold of lines 92-93 - the three variables are left exactly as they were
    before the file, and the iteration appends the file, with the text of
    the exception, to the error log. *)
Theorem per_file_atomic (pre : list (dir_entry F)) f e l' :
  let st := for_loop pre loop_state0 in
  try_body f (vars st) = (Raise e, l') ->
  l' = vars st /\
  iteration st f =
  {| vars := vars st; error_files := error_files st ++ [(name f, str e)] |}.
Proof.
  intros st Hb.
  assert (Hal : aligned (vars st)) by (apply for_loop_aligned; exact I).
  pose proof (try_body_raise f (vars st) l' e Hal Hb) as ->.
  split; [reflexivity|].
  unfold iteration. rewrite Hb. reflexivity.
Qed.

(** ** The final division *)


(** ** The order of the files *)





End Generic.

(** ** Summation

    What the properties below need of [a.sum()] holds in whatever order the
    terms are added: a term with a property that addition passes on from
    either operand (being NaN; being NaN or infinite) gives the sum that
    property. *)

Section Summation.

Context {F : Type} {SF : Scalar F}.
Variable P : F -> Prop.
Hypothesis P_left : forall x y, P x -> P (x .+ y).
Hypothesis P_right : forall x y, P y -> P (x .+ y).

Lemma fold_absorbs (l : list F) acc :
  P acc \/ Exists P l -> P (fold_left sadd l acc).
Proof.
  revert acc. induction l as [|x l IH]; intros acc [Ha|Hl]; simpl.
  - exact Ha.
  - inversion Hl.
  - apply IH. left. now apply P_left.
  - apply IH. apply Exists_cons in Hl. destruct Hl as [Hx|Hl]; [left|right]; auto.
Qed.

Lemma map2_absorbs_l (r b : list F) :
  length r <= length b -> Exists P r -> Exists P (map2 sadd r b).
Proof.
  revert b. induction r as [|x r IH]; intros [|y b] Hl H; simpl in *;
    try lia; try (inversion H; fail).
  apply Exists_cons in H. destruct H as [Hx|Hr]; [left; auto|right; apply IH; auto; lia].
Qed.

Lemma map2_absorbs_r (r b : list F) :
  length b <= length r -> Exists P b -> Exists P (map2 sadd r b).
Proof.
  revert b. induction r as [|x r IH]; intros [|y b] Hl H; simpl in *;
    try lia; try (inversion H; fail).
  apply Exists_cons in H. destruct H as [Hy|Hb]; [left; auto|right; apply IH; auto; lia].
Qed.

Lemma Exists_firstn_skipn (n : nat) (l : list F) :
  Exists P l -> Exists P (firstn n l) \/ Exists P (skipn n l).
Proof.
  intros H. rewrite <- (firstn_skipn n l) in H. now apply Exists_app in H.
Qed.

Lemma add_blocks_absorbs (k : nat) (r a : list F) :
  length r = 8 -> 8 * k <= length a ->
  Exists P r \/ Exists P a ->
  length (fst (add_blocks k r a)) = 8 /\
  (Exists P (fst (add_blocks k r a)) \/ Exists P (snd (add_blocks k r a))).
Proof.
  revert r a. induction k as [|k IH]; intros r a Hr Ha H; cbn [add_blocks fst snd]; [auto|].
  assert (H8 : length (firstn 8 a) = 8) by (rewrite length_firstn; lia).
  apply IH.
  - rewrite map2_length. lia.
  - rewrite length_skipn. lia.
  - destruct H as [H|H].
    + left. apply map2_absorbs_l; [lia|exact H].
    + destruct (Exists_firstn_skipn 8 a H) as [H1|H2]; [left|right; exact H2].
      apply map2_absorbs_r; [lia|exact H1].
Qed.

Lemma unrolled_sum_absorbs (a : list F) :
  8 <= length a -> Exists P a -> P (unrolled_sum a).
Proof.
  intros Hn H. unfold unrolled_sum.
  assert (H8 : length (firstn 8 a) = 8) by (rewrite length_firstn; lia).
  assert (Hk : 8 * (length a / 8 - 1) <= length (skipn 8 a)).
  { rewrite length_skipn. pose proof (Nat.Div0.mul_div_le (length a) 8). lia. }
  destruct (add_blocks_absorbs (length a / 8 - 1) (firstn 8 a) (skipn 8 a) H8 Hk
              (Exists_firstn_skipn 8 a H)) as [Hl Hex].
  destruct (add_blocks (length a / 8 - 1) (firstn 8 a) (skipn 8 a)) as [r rest].
  simpl in Hl, Hex.
  destruct r as [|r0 [|r1 [|r2 [|r3 [|r4 [|r5 [|r6 [|r7 [|r8 r]]]]]]]]]; try discriminate Hl.
  apply fold_absorbs. destruct Hex as [Hr|Hrest]; [left|right; exact Hrest].
  repeat (apply Exists_cons in Hr; destruct Hr as [Hr|Hr]); auto 6.
  inversion Hr.
Qed.

Lemma pairwise_sum_absorbs (fuel : nat) (a : list F) :
  Exists P a -> P (pairwise_sum fuel a).
Proof.
  revert a. induction fuel as [|fuel IH]; intros a H; cbn [pairwise_sum].
  - destruct (length a <? 8) eqn:E8; [apply fold_absorbs; now right|].
    apply Nat.ltb_ge in E8.
    destruct (length a <=? 128); now apply unrolled_sum_absorbs.
  - destruct (length a <? 8) eqn:E8; [apply fold_absorbs; now right|].
    apply Nat.ltb_ge in E8.
    destruct (length a <=? 128); [now apply unrolled_sum_absorbs|].
    destruct (Exists_firstn_skipn (length a / 2 - (length a / 2) mod 8) a H) as [H1|H2].
    + apply P_left. now apply IH.
    + apply P_right. now apply IH.
Qed.

Lemma sum_absorbs (a : list F) : Exists P a -> P (sum a).
Proof.
  intros H. unfold sum. apply P_right. now apply pairwise_sum_absorbs.
Qed.

End Summation.

(** The fuel of [pairwise_sum] does not matter once it reaches the length of
    the array. *)
Lemma pairwise_sum_fuel {F} {SF : Scalar F} (fuel fuel' : nat) (a : list F) :
  length a <= fuel -> length a <= fuel' ->
  pairwise_sum fuel a = pairwise_sum fuel' a.
Proof.
  revert fuel' a. induction fuel as [|fuel IH]; intros fuel' a H H'.
  - destruct a; [|simpl in H; lia]. destruct fuel'; reflexivity.
  - destruct fuel' as [|fuel'].
    + destruct a; [|simpl in H'; lia]. reflexivity.
    + cbn [pairwise_sum]. destruct (length a <? 8); [reflexivity|].
      destruct (length a <=? 128) eqn:E; [reflexivity|].
      apply Nat.leb_gt in E.
      assert (Hn2 : 0 < length a / 2 - (length a / 2) mod 8 <= length a / 2).
      { pose proof (Nat.mod_upper_bound (length a / 2) 8).
        assert (64 <= length a / 2) by (apply Nat.div_le_lower_bound; lia). lia. }
      assert (Hhalf : length a / 2 < length a) by (apply Nat.div_lt; lia).
      f_equal; apply IH; rewrite ?length_firstn, ?length_skipn; lia.
Qed.

(** ** binary64 *)

Section Binary64.

Local Open Scope float_scope.

(** The three classes of a binary64 number the properties speak of, read off
    its specification [Prim2SF]. *)
Lemma SFeqb_same s :
  SFeqb s s = match s with S754_nan => false | _ => true end.
Proof.
  destruct s as [b|b| |b m e]; unfold SFeqb; simpl; try destruct b; try reflexivity;
    rewrite Z.compare_refl, Pos.compare_cont_refl; reflexivity.
Qed.

Lemma is_nan_SF x :
  is_nan x = match Prim2SF x with S754_nan => true | _ => false end.
Proof.
  unfold is_nan. rewrite eqb_spec, SFeqb_same. destruct (Prim2SF x); reflexivity.
Qed.

Lemma is_infinity_SF x :
  is_infinity x = match Prim2SF x with S754_infinity _ => true | _ => false end.
Proof.
  unfold is_infinity. rewrite eqb_spec, abs_spec.
  replace (Prim2SF infinity) with (S754_infinity false) by reflexivity.
  destruct (Prim2SF x) as [b|b| |b m e]; reflexivity.
Qed.

Lemma is_zero_SF x :
  is_zero x = match Prim2SF x with S754_zero _ => true | _ => false end.
Proof.
  unfold is_zero. rewrite eqb_spec.
  replace (Prim2SF zero) with (S754_zero false) by reflexivity.
  destruct (Prim2SF x) as [b|b| |b m e]; try destruct b; reflexivity.
Qed.

Lemma nonfinite_SF x :
  nonfinite x =
  match Prim2SF x with S754_nan | S754_infinity _ => true | _ => false end.
Proof.
  unfold nonfinite. rewrite is_nan_SF, is_infinity_SF.
  destruct (Prim2SF x); reflexivity.
Qed.

(** Dividing by zero gives NaN or an infinity, whatever is divided. *)
Lemma div_zero_nonfinite v t : is_zero t = true -> nonfinite (v / t) = true.
Proof.
  rewrite nonfinite_SF, is_zero_SF, div_spec.
  destruct (Prim2SF t); try discriminate. intros _.
  destruct (Prim2SF v); reflexivity.
Qed.

(** NaN and the infinities are absorbing for the operations of the fold
    and of the trapezoidal rule. *)
Lemma mul_nonfinite_l x y : nonfinite x = true -> nonfinite (x * y) = true.
Proof.
  rewrite !nonfinite_SF, mul_spec.
  destruct (Prim2SF x); try discriminate; intros _; destruct (Prim2SF y); reflexivity.
Qed.

Lemma mul_nonfinite_r x y : nonfinite y = true -> nonfinite (x * y) = true.
Proof.
  rewrite !nonfinite_SF, mul_spec.
  destruct (Prim2SF y); try discriminate; intros _; destruct (Prim2SF x); reflexivity.
Qed.

Lemma add_nonfinite_l x y : nonfinite x = true -> nonfinite (x + y) = true.
Proof.
  rewrite !nonfinite_SF, add_spec.
  destruct (Prim2SF x) as [|[|]| |]; try discriminate; intros _;
    destruct (Prim2SF y) as [|[|]| |]; reflexivity.
Qed.

Lemma add_nonfinite_r x y : nonfinite y = true -> nonfinite (x + y) = true.
Proof.
  rewrite !nonfinite_SF, add_spec.
  destruct (Prim2SF y) as [|[|]| |]; try discriminate; intros _;
    destruct (Prim2SF x) as [|[|]| |]; reflexivity.
Qed.

Lemma div_nonfinite_l x y : nonfinite x = true -> nonfinite (x / y) = true.
Proof.
  rewrite !nonfinite_SF, div_spec.
  destruct (Prim2SF x); try discriminate; intros _; destruct (Prim2SF y); reflexivity.
Qed.

Lemma div_nonfinite_nan x y :
  nonfinite x = true -> nonfinite y = true -> is_nan (x / y) = true.
Proof.
  rewrite !nonfinite_SF, is_nan_SF, div_spec.
  destruct (Prim2SF x); try discriminate; intros _;
    destruct (Prim2SF y); try discriminate; reflexivity.
Qed.

Lemma map2_all_l (op : float -> float -> float) (a b : list float) :
  (forall x y, nonfinite x = true -> nonfinite (op x y) = true) ->
  all_nonfinite a -> all_nonfinite (map2 op a b).
Proof.
  intros Hop Ha. revert b. induction Ha as [|x a Hx _ IH]; intros [|y b]; simpl;
    constructor; auto. apply IH.
Qed.

Lemma map2_all_r (op : float -> float -> float) (a b : list float) :
  (forall x y, nonfinite y = true -> nonfinite (op x y) = true) ->
  all_nonfinite b -> all_nonfinite (map2 op a b).
Proof.
  intros Hop Hb. revert a. induction Hb as [|y b Hy _ IH]; intros [|x a]; simpl;
    constructor; auto. apply IH.
Qed.

Lemma fold_all_nonfinite (op : float -> float -> float) vs a :
  (forall x y, nonfinite x = true -> nonfinite (op x y) = true) ->
  (forall x y, nonfinite y = true -> nonfinite (op x y) = true) ->
  all_nonfinite a \/ Exists all_nonfinite vs ->
  all_nonfinite (fold_left (map2 op) vs a).
Proof.
  intros Hl Hr. revert a. induction vs as [|v vs IH]; intros a [Ha|Hvs]; simpl.
  - exact Ha.
  - inversion Hvs.
  - apply IH. left. now apply map2_all_l.
  - apply IH. inversion Hvs; subst.
    + left. now apply map2_all_r.
    + now right.
Qed.

Lemma sum_nonfinite (l : list float) :
  all_nonfinite l -> l <> [] -> nonfinite (sum l) = true.
Proof.
  intros Hl Hne.
  apply (sum_absorbs (SF:=float_scalar) (fun v => nonfinite v = true)
           add_nonfinite_l add_nonfinite_r).
  destruct Hl as [|x l Hx Hl]; [contradiction|]. now left.
Qed.

Lemma tl_all (l : list float) : all_nonfinite l -> all_nonfinite (tl l).
Proof. intros [|x l' _ H]; simpl; [constructor|exact H]. Qed.

(** The integral of a curve of at least two points that are all NaN or
    infinite is NaN or infinite. *)
Lemma trapezoid_nonfinite (y x : list float) :
  all_nonfinite y -> 2 <= length y -> 2 <= length x ->
  nonfinite (trapezoid y x) = true.
Proof.
  intros Hy Hly Hlx. unfold trapezoid.
  apply sum_nonfinite.
  - apply Forall_map.
    assert (Hp : all_nonfinite (map2 smul (diff x) (pair_sums y))).
    { apply map2_all_r; [exact mul_nonfinite_r|].
      unfold pair_sums. apply map2_all_l; [exact add_nonfinite_l|].
      now apply tl_all. }
    revert Hp. apply Forall_impl. intros v Hv. now apply div_nonfinite_l.
  - intros E. apply (f_equal (@length float)) in E.
    rewrite length_map, map2_length, diff_length, pair_sums_length in E.
    simpl in E. lia.
Qed.

Lemma div_by_zero_all (t : float) (a : list float) :
  is_zero t = true -> all_nonfinite (div_by t a).
Proof.
  intros Ht. unfold div_by. apply Forall_map. apply Forall_forall.
  intros v _. now apply div_zero_nonfinite.
Qed.

Lemma div_by_nonfinite_nan (t : float) (a : list float) :
  nonfinite t = true -> all_nonfinite a ->
  Forall (fun v => is_nan v = true) (div_by t a).
Proof.
  intros Ht Ha. unfold div_by. apply Forall_map.
  revert Ha. apply Forall_impl. intros v Hv. now apply div_nonfinite_nan.
Qed.

(** ** The scenario of the specification *)

(** C3.  On the three files over the grid [1, 2, 3] with powers [1, 1, 1],
    [2, 2, 2] and [0, 0, 4], computed in binary64: the normalized curves
    are [0.5, 0.5, 0.5], [0.5, 0.5, 0.5] and [0, 0, 2]; the loop ends with
    the AND accumulator [0, 0, 0.5], of integral 0.25, and the OR
    accumulator [1, 1, 3], of integral 3; the run logs no error and stores
    the table with AND column [0, 0, 2] and OR column [1/3, 1/3, 1]. *)
Theorem scenario_by_hand :
  map normalized
    [table grid123 [1; 1; 1]; table grid123 [2; 2; 2]; table grid123 [0; 0; 4]] =
    [[0.5; 0.5; 0.5]; [0.5; 0.5; 0.5]; [0; 0; 2]] /\
  vars (for_loop (pg_files_of scenario) loop_state0) =
    {| frecs := Some [1; 2; 3];
       stacked_and := Some [0; 0; 0.5];
       stacked_or := Some [1; 1; 3] |} /\
  np_trapz (Some [0; 0; 0.5]) (Some grid123) = Ret 0.25 /\
  np_trapz (Some [1; 1; 3]) (Some grid123) = Ret 3 /\
  _calcStacked scenario =
    {| run_error_files := [];
       stacked := Some (Arr2 3 [[1; 0; 1 / 3]; [2; 0; 1 / 3]; [3; 2; 1]]);
       raised := None |}.
Proof.
  repeat split; vm_compute; reflexivity.
Qed.

(** ** Division by a zero integral *)

(** A file whose integral is zero makes every value of an accumulator NaN
    or infinite, wherever it comes in the fold. *)
Lemma zero_integral_curve (op : float -> float -> float) t0 ts :
  (forall x y, nonfinite x = true -> nonfinite (op x y) = true) ->
  (forall x y, nonfinite y = true -> nonfinite (op x y) = true) ->
  Exists zero_integral (t0 :: ts) ->
  all_nonfinite (fold_left (map2 op) (map normalized ts) (normalized t0)).
Proof.
  intros Hl Hr Hz. apply fold_all_nonfinite; [exact Hl|exact Hr|].
  inversion Hz as [t l Ht|t l Ht]; subst.
  - left. unfold normalized. now apply div_by_zero_all.
  - right. apply Exists_exists in Ht. destruct Ht as (t & Hin & Ht).
    apply Exists_exists. exists (normalized t). split.
    + now apply in_map.
    + unfold normalized. now apply div_by_zero_all.
Qed.

(** C8.  Over files that all parse into tables on one grid of at least two
    points, nothing checks a divisor: the run raises nothing and logs
    nothing, whatever the integrals are.  If the power column of some file
    integrates to zero, every value of the AND column and of the OR column
    of the result is NaN; if the integral of the final AND (OR) accumulator
    is zero, every value of the AND (OR) column is NaN or infinite. *)
Theorem zero_integral_propagates (g : list float) f0 fs t0 ts :
  2 <= length g ->
  parses_to f0 t0 -> table_on g t0 ->
  Forall2 (fun f t => parses_to f t /\ table_on g t) fs ts ->
  let r := _calcStacked (f0 :: fs) in
  raised r = None /\ run_error_files r = [] /\
  length (result_col 1 r) = length g /\
  length (result_col 2 r) = length g /\
  (Exists zero_integral (t0 :: ts) ->
     all_nan (result_col 1 r) /\ all_nan (result_col 2 r)) /\
  (is_zero (trapezoid (and_curve t0 ts) g) = true -> all_nonfinite (result_col 1 r)) /\
  (is_zero (trapezoid (or_curve t0 ts) g) = true -> all_nonfinite (result_col 2 r)).
Proof.
  intros Hn Hf0 Ht0 Hfs r.
  destruct (run_tables_columns g f0 fs t0 ts Hf0 Ht0 Hfs) as (Hr & He & _ & E1 & E2).
  destruct (run_tables g f0 fs t0 ts Hf0 Ht0 Hfs) as (_ & Hand & Hor).
  fold r in Hr, He, E1, E2. rewrite E1, E2, !div_by_length.
  repeat split; auto.
  - pose proof (zero_integral_curve smul t0 ts mul_nonfinite_l mul_nonfinite_r H) as Hc.
    apply div_by_nonfinite_nan; [|exact Hc].
    apply trapezoid_nonfinite; [exact Hc|lia|lia].
  - pose proof (zero_integral_curve sadd t0 ts add_nonfinite_l add_nonfinite_r H) as Hc.
    apply div_by_nonfinite_nan; [|exact Hc].
    apply trapezoid_nonfinite; [exact Hc|lia|lia].
  - now apply div_by_zero_all.
  - now apply div_by_zero_all.
Qed.

(** ** The order of discovery *)

(** binary64 multiplication and addition commute (they do not associate). *)
Lemma SFmul_comm prec emax x y : SFmul prec emax x y = SFmul prec emax y x.
Proof.
  destruct x as [sx|sx| |sx mx ex], y as [sy|sy| |sy my ey]; simpl;
    try rewrite (xorb_comm sy sx); try reflexivity.
  rewrite (Pos.mul_comm my mx), (Z.add_comm ey ex). reflexivity.
Qed.

Lemma SFadd_comm prec emax x y : SFadd prec emax x y = SFadd prec emax y x.
Proof.
  destruct x as [sx|sx| |sx mx ex], y as [sy|sy| |sy my ey]; simpl;
    try (destruct sx, sy; reflexivity); try reflexivity.
  rewrite (Z.min_comm ey ex), Z.add_comm. reflexivity.
Qed.

Lemma mul_comm (x y : float) : x * y = y * x.
Proof.
  apply Prim2SF_inj. rewrite !mul_spec. apply SFmul_comm.
Qed.

Lemma add_comm (x y : float) : x + y = y + x.
Proof.
  apply Prim2SF_inj. rewrite !add_spec. apply SFadd_comm.
Qed.


End Binary64.

(** * The statements on the example folders *)

Section Examples.

Local Open Scope float_scope.

Lemma scenario_tables :
  Forall2 (fun f t => parses_to f t /\ table_on grid123 t)
    [pg_file "pg2.dat" grid123 [2; 2; 2]; pg_file "pg3.dat" grid123 [0; 0; 4]]
    [table grid123 [2; 2; 2]; table grid123 [0; 0; 4]].
Proof.
  repeat constructor.
Defined.

Lemma stacked_product_and_sum_witness :
  parses_to (pg_file "pg1.dat" grid123 [1; 1; 1]) (table grid123 [1; 1; 1]) /\
  table_on grid123 (table grid123 [1; 1; 1]) /\
  raised (_calcStacked scenario) = None /\
  result_col 0 (_calcStacked scenario) = grid123.
Proof.
  assert (H1 : parses_to (pg_file "pg1.dat" grid123 [1; 1; 1]) (table grid123 [1; 1; 1]))
    by (split; reflexivity).
  assert (H2 : table_on grid123 (table grid123 [1; 1; 1]))
    by (split; [apply le_n|reflexivity]).
  pose proof (stacked_product_and_sum grid123 _ _ _ _ H1 H2 scenario_tables) as H.
  exact (conj H1 (conj H2 (conj (proj1 H) (proj1 (proj2 H))))).
Defined.

(** C2 as stated fails in binary64: for the single file with grid
    [0, 1, 2] and powers [2, 3, 4] the normalized curve integrates to
    0.9999999999999999, and the second division moves every value of the
    result off the normalized curve (0.5 becomes 0.5000000000000001). *)
Lemma single_file_not_normalized :
  let r := _calcStacked [pg_file "a.dat" grid012 power234] in
  ~ (result_col 1 r = result_col 2 r /\
     result_col 1 r = normalized (table grid012 power234)).
Proof.
  intros r [_ H].
  apply (f_equal (fun l => PrimFloat.eqb (nth 1 l 0) 0.5)) in H.
  vm_compute in H. discriminate H.
Qed.

Lemma single_file_curves_witness :
  parses_to (pg_file "a.dat" grid012 power234) (table grid012 power234) /\
  table_on grid012 (table grid012 power234) /\
  result_col 1 (_calcStacked [pg_file "a.dat" grid012 power234]) =
  result_col 2 (_calcStacked [pg_file "a.dat" grid012 power234]).
Proof.
  assert (H1 : parses_to (pg_file "a.dat" grid012 power234) (table grid012 power234))
    by (split; reflexivity).
  assert (H2 : table_on grid012 (table grid012 power234))
    by (split; [apply le_n|reflexivity]).
  exact (conj H1 (conj H2 (proj1 (single_file_curves grid012 _ _ H1 H2)))).
Defined.

(** The second divisor of C2 is not 1 in general, nor always near it:
    the normalized curve of the file above integrates to
    0.9999999999999999, and that of a file whose powers cancel in the
    trapezoidal sum to 0.75. *)
Lemma second_divisor_not_one :
  trapezoid (normalized (table grid012 power234)) grid012 = 0x1.fffffffffffffp-1 /\
  trapezoid
    (normalized
       (table grid012 [7000000000000002; -7000000000000000; 7000000000000004]))
    grid012 = 0.75.
Proof. split; vm_compute; reflexivity. Qed.

(** C6 as stated fails: on the empty folder the exception that escapes is
    not a [NoValidInputError]. *)
Lemma empty_folder_not_NoValidInputError :
  ~ (exists e, raised (_calcStacked (@nil (dir_entry float))) = Some e /\
               exn_class e = "NoValidInputError"%string).
Proof.
  intros (e & He & Hc). vm_compute in He. injection He as <-.
  discriminate Hc.
Qed.

Lemma no_file_loads_witness :
  Forall (fun f => loads f = false)
    (pg_files_of [bad_file "notes.txt" some_parse_error; one_row_file "one.dat" [1; 1]]) /\
  stacked (_calcStacked [bad_file "notes.txt" some_parse_error; one_row_file "one.dat" [1; 1]])
    = None.
Proof.
  assert (H : Forall (fun f : dir_entry float => loads f = false)
    (pg_files_of [bad_file "notes.txt" some_parse_error; one_row_file "one.dat" [1; 1]]))
    by (repeat constructor).
  exact (conj H (proj1 (no_file_loads _ H))).
Defined.

Lemma parse_failure_is_skipped_witness :
  isfile (bad_file (F:=float) "notes.txt" some_parse_error) = true /\
  genfromtxt (bad_file (F:=float) "notes.txt" some_parse_error) = Raise some_parse_error /\
  stacked (_calcStacked mixed_folder) =
  stacked (_calcStacked
    [pg_file "a.dat" grid012 power234;
     pg_file "short.dat" [0; 1] [2; 3];
     pg_file "b.dat" grid012 [1; 1; 1]]).
Proof.
  refine (conj eq_refl (conj eq_refl _)).
  exact (proj1 (parse_failure_is_skipped
                  [pg_file "a.dat" grid012 power234]
                  [pg_file "short.dat" [0; 1] [2; 3]; pg_file "b.dat" grid012 [1; 1; 1]]
                  (bad_file "notes.txt" some_parse_error) some_parse_error
                  eq_refl eq_refl)).
Defined.

Lemma zero_integral_propagates_witness :
  2 <= length grid012 /\
  parses_to flat_zero (table grid012 [0; 0; 0]) /\
  table_on grid012 (table grid012 [0; 0; 0]) /\
  Exists zero_integral [table grid012 [0; 0; 0]; table grid012 power234] /\
  all_nan (result_col 1 (_calcStacked [flat_zero; pg_file "a.dat" grid012 power234])).
Proof.
  assert (H0 : 2 <= length grid012) by (apply le_S, le_n).
  assert (H1 : parses_to flat_zero (table grid012 [0; 0; 0])) by (split; reflexivity).
  assert (H2 : table_on grid012 (table grid012 [0; 0; 0]))
    by (split; [apply le_n|reflexivity]).
  assert (H3 : Forall2 (fun f t => parses_to f t /\ table_on grid012 t)
                 [pg_file "a.dat" grid012 power234] [table grid012 power234])
    by (repeat constructor).
  assert (Hz : Exists zero_integral [table grid012 [0; 0; 0]; table grid012 power234])
    by (left; reflexivity).
  pose proof (zero_integral_propagates grid012 _ _ _ _ H0 H1 H2 H3) as H.
  exact (conj H0 (conj H1 (conj H2 (conj Hz
           (proj1 (proj1 (proj2 (proj2 (proj2 (proj2 H)))) Hz)))))).
Defined.

Lemma accumulators_same_length_witness :
  Forall from_genfromtxt mixed_folder /\
  same_length (vars (for_loop (pg_files_of mixed_folder) loop_state0)).
Proof.
  assert (H : Forall from_genfromtxt mixed_folder).
  { repeat constructor. }
  refine (conj H _).
  exact (proj1 (accumulators_same_length mixed_folder H)
           (pg_files_of mixed_folder) [] (eq_sym (app_nil_r _))).
Defined.

Lemma per_file_atomic_witness :
  let st := for_loop [pg_file "a.dat" grid012 power234] loop_state0 in
  let f := pg_file "short.dat" [0; 1] [2; 3] in
  try_body f (vars st) =
    (Raise (ValueError "operands could not be broadcast together with shapes (3,) (2,) "),
     vars st) /\
  iteration st f =
    {| vars := vars st;
       error_files := [("short.dat"%string,
                        "operands could not be broadcast together with shapes (3,) (2,) "%string)] |}.
Proof.
  intros st f.
  assert (H : try_body f (vars st) =
    (Raise (ValueError "operands could not be broadcast together with shapes (3,) (2,) "),
     vars st))
    by reflexivity.
  exact (conj H (proj2 (per_file_atomic [pg_file "a.dat" grid012 power234] f _ _ H))).
Defined.

(** The order of [a.sum()] shows from eight terms on: 1 followed by eight
    times 2^-53 adds up to 1 from the left, each term being lost in turn,
    and to 1 + 2^-50 in numpy's eight partial sums. *)
Lemma sum_in_partial_sums :
  let a := [1; 0x1p-53; 0x1p-53; 0x1p-53; 0x1p-53; 0x1p-53; 0x1p-53; 0x1p-53; 0x1p-53] in
  fold_left PrimFloat.add a 0 = 1 /\ sum a = 0x1.0000000000004p+0.
Proof. split; vm_compute; reflexivity. Qed.





(** C7 on a file with text where a number should be.  [np.genfromtxt] does
    not raise on such a file: it returns the table with NaN in place of the
    text, here [nan_file].  The file is folded like any other: the run
    raises nothing and the error log stays empty, and every value of the
    AND and OR columns is NaN, where the run over the folder without the
    file gives [1/3, 1/2, 2/3] up to the last bit. *)
Theorem text_field_is_folded :
  let r := _calcStacked [pg_file "a.dat" grid012 power234; nan_file] in
  let r' := _calcStacked [pg_file "a.dat" grid012 power234] in
  raised r = None /\ run_error_files r = [] /\
  result_col 1 r = [nan; nan; nan] /\ result_col 2 r = [nan; nan; nan] /\
  result_col 1 r' =
    [0x1.5555555555556p-2; 0x1.0000000000001p-1; 0x1.5555555555556p-1] /\
  stacked r <> stacked r'.
Proof.
  repeat split; try (vm_compute; reflexivity).
  intros H.
  apply (f_equal (fun s => match s with
                           | Some (Arr2 _ (row :: _)) => is_nan (nth 1 row 0)
                           | _ => false
                           end)) in H.
  vm_compute in H. discriminate H.
Qed.

End Examples.

(** * Further properties of [_calcStacked] *)

Section MoreGeneric.

Context {F : Type} {SF : Scalar F}.

(** Two folders whose entries agree in name and kind and run the same
    [try] block give the same run. *)
Lemma iteration_ext (f f' : dir_entry F) (st : loop_state F) :
  name f = name f' -> (forall l, try_body f l = try_body f' l) ->
  iteration st f = iteration st f'.
Proof.
  intros Hn Hb. unfold iteration. rewrite Hb, Hn. reflexivity.
Qed.

Lemma run_ext (listdir listdir' : list (dir_entry F)) :
  Forall2 (fun f f' => name f = name f' /\ isfile f = isfile f' /\
                       forall l, try_body f l = try_body f' l) listdir listdir' ->
  _calcStacked listdir = _calcStacked listdir'.
Proof.
  intros H. unfold _calcStacked.
  assert (E : forall st, for_loop (pg_files_of listdir) st =
                         for_loop (pg_files_of listdir') st).
  { induction H as [|f f' fs fs' (Hn & Hi & Hb) _ IH]; intros st; [reflexivity|].
    unfold pg_files_of in *. simpl. rewrite <- Hi.
    destruct (isfile f); [|apply IH].
    rewrite !for_loop_cons, (iteration_ext f f' st Hn Hb). apply IH. }
  rewrite E. reflexivity.
Qed.

Lemma nth_firstn_lt {A} (k n : nat) (l : list A) d :
  k < n -> nth k (firstn n l) d = nth k l d.
Proof.
  revert k l. induction n as [|n IH]; intros k l Hk; [lia|].
  destruct l as [|x l]; [reflexivity|].
  destruct k as [|k]; simpl; [reflexivity|]. apply IH. lia.
Qed.

Lemma column_first_two k c (rows : list (list F)) :
  k < 2 -> 2 <= c ->
  column k (Arr2 2 (map (firstn 2) rows)) = column k (Arr2 c rows).
Proof.
  intros Hk Hc. unfold column.
  assert (E2 : (k <? 2) = true) by (apply Nat.ltb_lt; lia).
  assert (Ec : (k <? c) = true) by (apply Nat.ltb_lt; lia).
  rewrite E2, Ec, map_map. f_equal.
  apply map_ext. intros r. now apply nth_firstn_lt.
Qed.

Lemma normalize_first_two (a : ndarray F) :
  normalize (first_two a) = normalize a.
Proof.
  destruct a as [x|v|c rows]; try reflexivity. unfold first_two.
  destruct (2 <=? c) eqn:Hc; [|reflexivity].
  apply Nat.leb_le in Hc.
  unfold normalize. rewrite !(column_first_two _ c) by lia. reflexivity.
Qed.

Lemma try_body_first_two (f : dir_entry F) (l : locals F) :
  try_body (first_two_columns f) l = try_body f l.
Proof.
  rewrite !try_body_eq. unfold first_two_columns. simpl genfromtxt.
  destruct (genfromtxt f) as [a|e]; [|reflexivity].
  rewrite normalize_first_two. reflexivity.
Qed.

(** X1.  Columns after the second are never read: cutting every table of
    the folder down to its first two columns changes nothing of the run -
    not the table, not the error log, not the exception. *)
Theorem extra_columns_ignored (listdir : list (dir_entry F)) :
  _calcStacked (map first_two_columns listdir) = _calcStacked listdir.
Proof.
  apply run_ext. induction listdir as [|f fs IH]; constructor; [|exact IH].
  repeat split. apply try_body_first_two.
Qed.

Lemma first_fold_ret (f : dir_entry F) u l' :
  try_body f locals0 = (Ret u, l') ->
  exists c rows, genfromtxt f = Ret (Arr2 c rows) /\ 2 <= c.
Proof.
  rewrite try_body_eq.
  destruct (genfromtxt f) as [a|e]; [|discriminate].
  destruct (normalize a) as [[x p]|e] eqn:Hn; [|discriminate].
  apply normalize_ret in Hn. destruct Hn as (c & rows & -> & Hc & _).
  eauto.
Qed.

(** X2.  While nothing is folded yet, the [try] block of a file completes
    exactly when [np.genfromtxt] returns a two-dimensional array with at
    least two columns.  A scalar, a vector (what a file of a single row or
    a single column comes back as) or an exception is logged. *)
Theorem first_fold_iff (f : dir_entry F) :
  (exists l, try_body f locals0 = (Ret tt, l)) <->
  (exists c rows, genfromtxt f = Ret (Arr2 c rows) /\ 2 <= c).
Proof.
  split.
  - intros [l Hl]. exact (first_fold_ret f tt l Hl).
  - intros (c & rows & Hg & Hc).
    eexists. apply (try_body_first f locals0 c rows Hg Hc eq_refl).
Qed.

(** X3.  Once the grid is set, and with [np.genfromtxt] squeezing its
    result, the [try] block of a file completes exactly when the file
    parses into a matrix with at least two columns and as many rows as the
    grid; every other file is logged. *)
Theorem later_fold_iff (f : dir_entry F) (l : locals F) g :
  from_genfromtxt f -> same_length l -> frecs l = Some g ->
  (exists l', try_body f l = (Ret tt, l')) <->
  (exists c rows, genfromtxt f = Ret (Arr2 c rows) /\ 2 <= c /\
                  length rows = length g).
Proof.
  intros Hf Hsl Hg.
  unfold same_length in Hsl. rewrite Hg in Hsl.
  destruct l as [fr [a|] [o|]]; simpl in Hg, Hsl; subst fr; try contradiction.
  destruct Hsl as (Hn & Hga & Hao).
  split.
  - intros [l' Hl]. rewrite try_body_eq in Hl.
    unfold from_genfromtxt in Hf.
    destruct (genfromtxt f) as [t|e]; [|discriminate].
    destruct (normalize t) as [[x p]|e] eqn:Hnorm; [|discriminate].
    apply normalize_ret in Hnorm. destruct Hnorm as (c & rows & -> & Hc & _ & ->).
    simpl in Hl, Hf.
    destruct (broadcast smul a _) as [r|e] eqn:Ea; [|discriminate].
    apply broadcast_length in Ea; [|lia|rewrite normalized_length; lia].
    rewrite normalized_length in Ea.
    exists c, rows. repeat split; auto. lia.
  - intros (c & rows & Hgf & Hc & Hrows).
    eexists. apply (try_body_next f g a o c rows Hgf Hc); lia.
Qed.

(** X4.  A file whose [try] block raises, at whatever statement
    (parsing, indexing, a row count that differs from the grid), is one
    more entry of the error log at its place in the discovery order; table
    and escaping exception are those of the run over the folder without
    it. *)
Theorem any_failure_is_skipped (l1 l2 : list (dir_entry F)) f e :
  isfile f = true ->
  fst (try_body f (vars (for_loop (pg_files_of l1) loop_state0))) = Raise e ->
  let r := _calcStacked (l1 ++ f :: l2) in
  let r' := _calcStacked (l1 ++ l2) in
  stacked r = stacked r' /\ raised r = raised r' /\
  exists errs2,
    run_error_files r' = run_error_files (_calcStacked l1) ++ errs2 /\
    run_error_files r = run_error_files (_calcStacked l1) ++ (name f, str e) :: errs2.
Proof.
  intros Hf He r r'.
  set (st1 := for_loop (pg_files_of l1) loop_state0) in *.
  assert (Hit : iteration st1 f =
            {| vars := vars st1; error_files := error_files st1 ++ [(name f, str e)] |}).
  { unfold iteration. destruct (try_body f (vars st1)) as [[u|e'] l'] eqn:Hb;
      simpl in He; [discriminate|]. injection He as ->.
    apply try_body_raise in Hb; [|apply for_loop_aligned; exact I].
    subst l'. reflexivity. }
  assert (E' : for_loop (pg_files_of (l1 ++ l2)) loop_state0 =
               {| vars := vars (for_loop (pg_files_of l2) {| vars := vars st1; error_files := [] |});
                  error_files := error_files st1 ++ errors_from (vars st1) (pg_files_of l2) |}).
  { rewrite pg_files_of_app, for_loop_app. fold st1. apply for_loop_errors. }
  assert (E : for_loop (pg_files_of (l1 ++ f :: l2)) loop_state0 =
              {| vars := vars (for_loop (pg_files_of l2) {| vars := vars st1; error_files := [] |});
                 error_files := error_files st1 ++ (name f, str e) ::
                                errors_from (vars st1) (pg_files_of l2) |}).
  { rewrite pg_files_of_app, for_loop_app. fold st1.
    unfold pg_files_of at 1. simpl filter. rewrite Hf. fold (pg_files_of l2).
    rewrite for_loop_cons, Hit.
    rewrite for_loop_errors. simpl vars. simpl error_files.
    rewrite <- app_assoc. reflexivity. }
  assert (Hs : stacked r = stacked r' /\ raised r = raised r').
  { subst r r'. unfold _calcStacked. rewrite E, E'. simpl vars.
    destruct (finalize _); split; reflexivity. }
  destruct Hs as [Hs Hr]. split; [exact Hs|]. split; [exact Hr|].
  exists (errors_from (vars st1) (pg_files_of l2)).
  subst r r'. rewrite !run_error_files_eq. fold st1. rewrite E, E'.
  split; reflexivity.
Qed.

Lemma for_loop_rows n (files : list (dir_entry F)) (ts : list (ndarray F)) :
  Forall2 (fun f t => parses_to f t /\ has_rows n t) files ts ->
  forall g a o errs,
  length a = n -> length o = n ->
  for_loop files
    {| vars := {| frecs := Some g; stacked_and := Some a; stacked_or := Some o |};
       error_files := errs |} =
  {| vars := {| frecs := Some g;
                stacked_and := Some (fold_left (map2 smul) (map normalized ts) a);
                stacked_or := Some (fold_left (map2 sadd) (map normalized ts) o) |};
     error_files := errs |}.
Proof.
  induction 1 as [|f t fs ts [[_ Hg] Ht] _ IH]; intros g a o errs Ha Ho; [reflexivity|].
  destruct t as [v|v|c rows]; try contradiction. destruct Ht as [Hc Hn].
  rewrite for_loop_cons. unfold iteration. simpl vars.
  rewrite (try_body_next f g a o c rows Hg Hc) by lia. simpl error_files.
  simpl map. simpl fold_left.
  apply IH; rewrite map2_length, normalized_length; lia.
Qed.

Lemma rows_lengths n (files : list (dir_entry F)) (ts : list (ndarray F)) :
  Forall2 (fun f t => parses_to f t /\ has_rows n t) files ts ->
  Forall (fun v => length v = n) (map normalized ts) /\ pg_files_of files = files.
Proof.
  induction 1 as [|f t fs ts [[Hf _] Ht] _ [IH1 IH2]]; simpl; [split; [constructor|reflexivity]|].
  destruct t as [v|v|c rows]; try contradiction. destruct Ht as [_ Hn].
  split.
  - constructor; [|exact IH1]. rewrite normalized_length. exact Hn.
  - unfold pg_files_of in *. simpl. rewrite Hf, IH2. reflexivity.
Qed.

(** The run over files that parse into matrices of one row count,
    whatever their frequency columns. *)
Lemma run_rows n f0 fs (t0 : ndarray F) ts :
  parses_to f0 t0 -> has_rows n t0 ->
  Forall2 (fun f t => parses_to f t /\ has_rows n t) fs ts ->
  let r := _calcStacked (f0 :: fs) in
  (raised r = None /\ run_error_files r = [] /\
   result_col 0 r = freq_col t0 /\
   result_col 1 r =
     div_by (trapezoid (and_curve t0 ts) (freq_col t0)) (and_curve t0 ts) /\
   result_col 2 r =
     div_by (trapezoid (or_curve t0 ts) (freq_col t0)) (or_curve t0 ts)) /\
  length (freq_col t0) = n /\
  length (and_curve t0 ts) = n /\ length (or_curve t0 ts) = n.
Proof.
  intros [Hf0 Hg0] Ht0 Hfs r.
  destruct t0 as [v|v|c rows]; try contradiction. destruct Ht0 as [Hc Hn].
  destruct (rows_lengths n fs ts Hfs) as [Hls Hpg].
  assert (Hnorm : length (normalized (Arr2 c rows)) = n)
    by (rewrite normalized_length; exact Hn).
  assert (Hand : length (and_curve (Arr2 c rows) ts) = n)
    by (apply fold_map2_length; assumption).
  assert (Hor : length (or_curve (Arr2 c rows) ts) = n)
    by (apply fold_map2_length; assumption).
  assert (Hfr : length (freq_col (Arr2 c rows)) = n)
    by (rewrite freq_col_length; exact Hn).
  split; [|auto].
  subst r. unfold _calcStacked.
  assert (Hpg0 : pg_files_of (f0 :: fs) = f0 :: fs).
  { unfold pg_files_of in *. simpl. rewrite Hf0, Hpg. reflexivity. }
  rewrite Hpg0, for_loop_cons. unfold iteration. cbn [vars loop_state0].
  rewrite (try_body_first f0 locals0 c rows Hg0 Hc eq_refl). cbn [error_files].
  rewrite (for_loop_rows n fs ts Hfs) by assumption.
  cbn [vars]. fold (and_curve (Arr2 c rows) ts). fold (or_curve (Arr2 c rows) ts).
  rewrite finalize_set by congruence.
  unfold result_col. simpl raised. simpl run_error_files. simpl stacked.
  destruct (rows3_col (freq_col (Arr2 c rows))
              (div_by (trapezoid (and_curve (Arr2 c rows) ts) (freq_col (Arr2 c rows)))
                 (and_curve (Arr2 c rows) ts))
              (div_by (trapezoid (or_curve (Arr2 c rows) ts) (freq_col (Arr2 c rows)))
                 (or_curve (Arr2 c rows) ts)))
    as (E0 & E1 & E2); [rewrite div_by_length; lia|rewrite !div_by_length; lia|].
  auto.
Qed.

(** X5.  The frequency columns of the files are never compared.  Files
    that parse into matrices of one row count are all folded, nothing is
    logged, and the frequency column of the result is that of the first
    file; the frequencies of a later file enter only the integral that
    normalizes its own powers. *)
Theorem first_grid_wins n f0 fs (t0 : ndarray F) ts :
  parses_to f0 t0 -> has_rows n t0 ->
  Forall2 (fun f t => parses_to f t /\ has_rows n t) fs ts ->
  let r := _calcStacked (f0 :: fs) in
  raised r = None /\ run_error_files r = [] /\
  result_col 0 r = freq_col t0 /\
  result_col 1 r =
    div_by (trapezoid (and_curve t0 ts) (freq_col t0)) (and_curve t0 ts) /\
  result_col 2 r =
    div_by (trapezoid (or_curve t0 ts) (freq_col t0)) (or_curve t0 ts).
Proof.
  intros Hf0 Ht0 Hfs r. exact (proj1 (run_rows n f0 fs t0 ts Hf0 Ht0 Hfs)).
Qed.

Lemma valid_on_folds g f (l : locals F) :
  valid_on g f -> set_on g l ->
  exists l', try_body f l = (Ret tt, l') /\ set_on g l' /\ parses f = true.
Proof.
  intros [[_ Hg] Ht] Hl.
  unfold parses. rewrite Hg.
  destruct (table_of f) as [v|v|c rows]; try contradiction.
  pose proof (table_on_length _ _ _ Ht) as Hn. destruct Ht as [Hc Hgrid].
  destruct Hl as [->|(a & o & -> & Ha & Ho)].
  - eexists. split; [apply (try_body_first f locals0 c rows Hg Hc eq_refl)|].
    split; [|reflexivity]. right. rewrite Hgrid. do 2 eexists. split; [reflexivity|].
    rewrite normalized_length. auto.
  - eexists. split; [apply (try_body_next f g a o c rows Hg Hc); lia|].
    split; [|reflexivity]. right. do 2 eexists. split; [reflexivity|].
    rewrite !map2_length, normalized_length. lia.
Qed.

Lemma for_loop_unparsable g (files : list (dir_entry F)) :
  Forall (fun f => valid_on g f \/ parses f = false) files ->
  forall st, set_on g (vars st) ->
  exists V,
    for_loop files st =
      {| vars := V; error_files := error_files st ++ parse_errors files |} /\
    for_loop (filter parses files) st =
      {| vars := V; error_files := error_files st |}.
Proof.
  induction 1 as [|f fs Hf _ IH]; intros st Hst.
  - exists (vars st). simpl. rewrite app_nil_r. destruct st; split; reflexivity.
  - destruct Hf as [Hv|Hp].
    + destruct (valid_on_folds g f (vars st) Hv Hst) as (l' & Hb & Hl' & Hp).
      simpl filter. rewrite Hp. rewrite !for_loop_cons.
      unfold iteration. rewrite Hb.
      destruct (IH {| vars := l'; error_files := error_files st |} Hl') as (V & E1 & E2).
      exists V. rewrite E1, E2. simpl error_files.
      unfold parse_errors. simpl flat_map.
      unfold parses in Hp. destruct (genfromtxt f); [|discriminate].
      split; reflexivity.
    + simpl filter. rewrite Hp. rewrite for_loop_cons.
      unfold parses in Hp. destruct (genfromtxt f) as [a|e] eqn:Hg; [discriminate|].
      rewrite (iteration_parse_failure st f e Hg).
      destruct (IH {| vars := vars st; error_files := error_files st ++ [(name f, str e)] |} Hst)
        as (V & E1 & _).
      destruct (IH st Hst) as (V' & E1' & E2').
      assert (V = V').
      { rewrite for_loop_errors in E1. rewrite for_loop_errors in E1'.
        simpl vars in E1. injection E1 as <- _. injection E1' as <- _. reflexivity. }
      subst V'. exists V. rewrite E1, E2'. simpl error_files.
      unfold parse_errors. simpl flat_map. rewrite Hg.
      rewrite <- app_assoc. split; reflexivity.
Qed.

Lemma pg_files_of_filter (p : dir_entry F -> bool) (listdir : list (dir_entry F)) :
  pg_files_of (filter p listdir) = filter p (pg_files_of listdir).
Proof.
  unfold pg_files_of. induction listdir as [|f fs IH]; [reflexivity|].
  simpl. destruct (p f) eqn:Hp, (isfile f) eqn:Hi; simpl; rewrite ?Hp, ?Hi, IH; reflexivity.
Qed.

(** X6.  In a folder whose regular files either parse into tables on one
    grid or make [np.genfromtxt] raise, the error log lists exactly the
    files that do not parse, in discovery order, each with the text of its
    exception; table and escaping exception are those of the run over the
    files that parse, which logs nothing. *)
Theorem log_lists_unparsable_files g (listdir : list (dir_entry F)) :
  Forall (fun f => valid_on g f \/ parses f = false) (pg_files_of listdir) ->
  let r := _calcStacked listdir in
  let r' := _calcStacked (filter parses listdir) in
  run_error_files r = parse_errors (pg_files_of listdir) /\
  run_error_files r' = [] /\
  stacked r = stacked r' /\ raised r = raised r'.
Proof.
  intros H r r'.
  destruct (for_loop_unparsable g _ H loop_state0 (or_introl eq_refl)) as (V & E1 & E2).
  subst r r'. unfold _calcStacked. rewrite pg_files_of_filter, E1, E2. simpl.
  destruct (finalize V); simpl; auto.
Qed.

End MoreGeneric.

(** * The constructor and [plot] *)

Section Object.

Context {F : Type} {SF : Scalar F}.

(** *** The constructor *)

Lemma finalize_ret (l : locals F) tbl :
  finalize l = Ret tbl ->
  exists g a o, frecs l = Some g /\ stacked_and l = Some a /\ stacked_or l = Some o /\
    length g = length a /\ length a = length o /\
    tbl = Arr2 3 (rows3 g (div_by (trapezoid a g) a) (div_by (trapezoid o g) o)).
Proof.
  unfold finalize. destruct l as [fr [a|] so]; simpl; [|discriminate].
  destruct fr as [g|]; simpl.
  - destruct (trapz a g) as [ta|e] eqn:Ea; [|discriminate]. simpl.
    destruct so as [o|]; simpl; [|discriminate].
    destruct (trapz o g) as [to|e] eqn:Eo; [|discriminate]. simpl.
    unfold vstackT. rewrite !div_by_length.
    destruct (length g =? length a) eqn:E1; [|discriminate].
    destruct (length a =? length o) eqn:E2; [|discriminate].
    apply Nat.eqb_eq in E1, E2. simpl. intros [= <-].
    rewrite trapz_trapezoid in Ea, Eo by lia.
    injection Ea as <-. injection Eo as <-.
    exists g, a, o. repeat split; auto.
  - destruct so as [o|]; simpl; discriminate.
Qed.

Lemma frecs_kept (f : dir_entry F) (l : locals F) g :
  frecs l = Some g -> frecs (snd (try_body f l)) = Some g.
Proof.
  intros Hg. rewrite try_body_eq.
  destruct (genfromtxt f) as [a|e]; [|exact Hg].
  destruct (normalize a) as [[x p]|e]; [|exact Hg].
  rewrite Hg.
  destruct (ufunc smul (stacked_and l) p); [|exact Hg].
  destruct (ufunc sadd (stacked_or l) p); exact Hg.
Qed.

Lemma for_loop_frecs_kept (files : list (dir_entry F)) (st : loop_state F) g :
  frecs (vars st) = Some g -> frecs (vars (for_loop files st)) = Some g.
Proof.
  revert st. induction files as [|f fs IH]; intros st Hg; [exact Hg|].
  rewrite for_loop_cons. apply IH. rewrite iteration_vars. now apply frecs_kept.
Qed.

(** The grid is the frequency column of the first file that loads. *)
Lemma for_loop_first_loadable (files : list (dir_entry F)) errs :
  Exists (fun f => loads f = true) files ->
  exists pre f post c rows,
    files = pre ++ f :: post /\
    Forall (fun f => loads f = false) pre /\
    genfromtxt f = Ret (Arr2 c rows) /\ 2 <= c /\
    frecs (vars (for_loop files {| vars := locals0; error_files := errs |})) =
      Some (freq_col (Arr2 c rows)).
Proof.
  intros Hex. revert errs.
  induction files as [|f fs IH]; intros errs; [inversion Hex|].
  destruct (loads f) eqn:Hl.
  - unfold loads in Hl.
    destruct (try_body f locals0) as [[u|e] l'] eqn:Hb; [|discriminate].
    destruct (first_fold_ret f u l' Hb) as (c & rows & Hg & Hc).
    exists [], f, fs, c, rows. repeat split; auto.
    rewrite for_loop_cons. apply for_loop_frecs_kept.
    unfold iteration. simpl vars.
    rewrite (try_body_first f locals0 c rows Hg Hc eq_refl). reflexivity.
  - assert (Hex' : Exists (fun f => loads f = true) fs).
    { inversion Hex; subst; [congruence|assumption]. }
    rewrite for_loop_cons. unfold iteration. simpl vars. simpl error_files.
    pose proof Hl as Hl'. unfold loads in Hl'.
    destruct (try_body f locals0) as [[u|e] l'] eqn:Hb; [discriminate|].
    apply try_body_raise in Hb; [|exact I]. subst l'.
    destruct (IH Hex' (errs ++ [(name f, str e)])) as (pre & f' & post & c & rows & -> & Hpre & Hg & Hc & Hfr).
    exists (f :: pre), f', post, c, rows. repeat split; auto.
Qed.

Lemma rows3_width (g a o : list F) :
  Forall (fun row => length row = 3) (rows3 g a o).
Proof.
  revert a o. induction g as [|x g IH]; intros [|y a] [|z o]; simpl; constructor; auto.
Qed.

Lemma init_eq folder cn hd sp cm (rl : list (F * option string)) rc rs listdir :
  StackedPg.__init__ folder cn hd sp cm rl rc rs listdir =
  match raised (_calcStacked listdir) with
  | Some e => Raise e
  | None =>
      Ret {| StackedPg.folder := folder;
             StackedPg.case_name := match cn with None => folder | Some c => c end;
             StackedPg.header := hd;
             StackedPg.sep := sp;
             StackedPg.comments := cm;
             StackedPg.ref_lines := rl;
             StackedPg.ref_colors :=
               match rc with
               | None => ["red"; "blue"; "green"; "orange"]%string
               | Some c => c
               end;
             StackedPg.ref_styles :=
               match rs with
               | None => ["-"; "--"; "-."; ":"]%string
               | Some c => c
               end;
             StackedPg.error_files := run_error_files (_calcStacked listdir);
             StackedPg.stacked := stacked (_calcStacked listdir) |}
  end.
Proof.
  unfold StackedPg.__init__. destruct (_calcStacked listdir) as [errs tbl [e|]]; reflexivity.
Qed.

Lemma loads_dec (f : dir_entry F) : {loads f = true} + {~ loads f = true}.
Proof. destruct (loads f); [left; reflexivity|right; discriminate]. Qed.

Lemma run_without_loadable (listdir : list (dir_entry F)) :
  ~ Exists (fun f => loads f = true) (pg_files_of listdir) ->
  raised (_calcStacked listdir) =
    Some (IndexError "list assignment index out of range").
Proof.
  intros Hno.
  assert (Hall : Forall (fun f => loads f = false) (pg_files_of listdir)).
  { apply Forall_forall. intros f Hin.
    destruct (loads f) eqn:Hl; [|reflexivity].
    exfalso. apply Hno. apply Exists_exists. eauto. }
  unfold _calcStacked.
  destruct (for_loop_none _ [] Hall) as (errs' & E & _).
  unfold loop_state0. rewrite E. simpl vars.
  rewrite finalize_unset by reflexivity. reflexivity.
Qed.

(** X7.  With [np.genfromtxt] squeezing its result, the constructor
    returns an object exactly when the [try] block of at least one regular
    file of the folder completes on its own; otherwise the exception of
    [_calcStacked] escapes, and with it the error log. *)
Theorem constructor_returns_iff folder cn hd sp cm (rl : list (F * option string))
  rc rs (listdir : list (dir_entry F)) :
  Forall from_genfromtxt listdir ->
  (exists s, StackedPg.__init__ folder cn hd sp cm rl rc rs listdir = Ret s) <->
  Exists (fun f => loads f = true) (pg_files_of listdir).
Proof.
  intros Hwf. rewrite init_eq. split.
  - intros [s Hs].
    destruct (Exists_dec (fun f => loads f = true) (pg_files_of listdir) loads_dec)
      as [Hex|Hno]; [exact Hex|].
    rewrite (run_without_loadable listdir Hno) in Hs. discriminate.
  - intros Hex.
    destruct (for_loop_first_loadable _ [] Hex)
      as (pre & f & post & c & rows & _ & _ & _ & _ & Hfr).
    fold (@loop_state0 F) in Hfr.
    pose proof (for_loop_same_length _ loop_state0
                  (pg_files_from_genfromtxt _ Hwf) I) as Hsl.
    unfold _calcStacked.
    destruct (vars (for_loop (pg_files_of listdir) loop_state0)) as [fr [a|] [o|]];
      unfold same_length in Hsl; simpl in Hfr, Hsl; subst fr; try contradiction.
    destruct Hsl as (_ & Hga & Hao).
    rewrite finalize_set by assumption. simpl. eauto.
Qed.

(** X8.  An object the constructor returns holds a table of three
    columns, every row with exactly three numbers, whose frequency column
    is that of the first regular file of the folder that loads; its
    [error_files] is the log of the run. *)
Theorem constructed_table folder cn hd sp cm (rl : list (F * option string))
  rc rs (listdir : list (dir_entry F)) s :
  StackedPg.__init__ folder cn hd sp cm rl rc rs listdir = Ret s ->
  exists pre f post c rows0 rows,
    pg_files_of listdir = pre ++ f :: post /\
    Forall (fun f => loads f = false) pre /\
    genfromtxt f = Ret (Arr2 c rows0) /\
    StackedPg.stacked s = Some (Arr2 3 rows) /\
    Forall (fun row => length row = 3) rows /\
    map (fun row => nth 0 row szero) rows = freq_col (Arr2 c rows0) /\
    StackedPg.error_files s = run_error_files (_calcStacked listdir).
Proof.
  rewrite init_eq. intros Hs.
  destruct (Exists_dec (fun f => loads f = true) (pg_files_of listdir) loads_dec)
    as [Hex|Hno]; [|rewrite (run_without_loadable listdir Hno) in Hs; discriminate].
  destruct (for_loop_first_loadable _ [] Hex)
    as (pre & f & post & c & rows0 & Hsplit & Hpre & Hg & _ & Hfr).
  fold (@loop_state0 F) in Hfr.
  revert Hs. unfold _calcStacked.
  destruct (finalize _) as [tbl|e] eqn:Hfin; simpl; [|discriminate].
  intros [= <-]. simpl.
  apply finalize_ret in Hfin.
  destruct Hfin as (g & a & o & Hg' & _ & _ & Hga & Hao & ->).
  rewrite Hfr in Hg'. injection Hg' as <-.
  exists pre, f, post, c, rows0. eexists. repeat split; eauto.
  - apply rows3_width.
  - apply rows3_col; rewrite ?div_by_length; assumption.
Qed.

End Object.

Section Plot.

Context {F : Type} {SF : Scalar F}.

Import StackedPg.

Lemma pymod_pos a b : b <> 0 -> pymod a b = Ret (a mod b).
Proof. destruct b; [contradiction|reflexivity]. Qed.

Lemma ref_loop_styled (on : target) labelled colors styles
  (lines : list (F * option string)) i :
  colors <> [] -> styles <> [] ->
  ref_loop on labelled colors styles lines i =
  (map (axvline_of on) (styled_from colors styles labelled i lines), Ret tt).
Proof.
  intros Hc Hs. revert i. induction lines as [|refline rest IH]; intros i; [reflexivity|].
  simpl ref_loop. unfold steps, dbind, try_eval, emit, dret.
  rewrite !pymod_pos by (destruct colors, styles; simpl; congruence).
  rewrite IH. simpl. rewrite app_nil_r. reflexivity.
Qed.

Lemma ref_loop_empty_palette (on : target) labelled colors styles
  (lines : list (F * option string)) i :
  lines <> [] -> colors = [] \/ styles = [] ->
  exists e, ref_loop on labelled colors styles lines i = ([], Raise e) /\
            exn_class e = "ZeroDivisionError"%string.
Proof.
  intros Hl Hp. destruct lines as [|refline rest]; [contradiction|].
  simpl ref_loop. unfold steps, dbind, try_eval, emit, dret.
  destruct Hp as [-> | ->].
  - eexists. split; reflexivity.
  - destruct colors; simpl; eexists; split; reflexivity.
Qed.

Lemma same_target_refl t : same_target t t = true.
Proof. destruct t; simpl; auto. apply Nat.eqb_refl. Qed.

Lemma axvlines_on_app on (t1 t2 : list (call F)) :
  axvlines_on on (t1 ++ t2) = axvlines_on on t1 ++ axvlines_on on t2.
Proof. apply flat_map_app. Qed.

Lemma axvlines_on_lines on on' (qs : list (F * string * string * option string)) :
  axvlines_on on (map (axvline_of on') qs) = if same_target on' on then qs else [].
Proof.
  induction qs as [|[[[x c] s] l] qs IH]; simpl.
  - destruct (same_target on' on); reflexivity.
  - unfold axvlines_on in *. simpl. rewrite IH.
    destruct (same_target on' on); reflexivity.
Qed.

Lemma saved_files_lines on (qs : list (F * string * string * option string)) :
  saved_files (map (axvline_of on) qs) = [] /\ shown (map (axvline_of on) qs) = false.
Proof.
  induction qs as [|[[[x c] s] l] qs [IH1 IH2]]; simpl; auto.
Qed.

Lemma stacked_column_table (s : self F) c rows k :
  stacked s = Some (Arr2 c rows) -> k < c ->
  stacked_column s k = Ret (map (fun r => nth k r szero) rows).
Proof.
  intros Hs Hk. unfold stacked_column. rewrite Hs. simpl.
  rewrite (proj2 (Nat.ltb_lt _ _) Hk). reflexivity.
Qed.

Lemma saved_files_app (t1 t2 : list (call F)) :
  saved_files (t1 ++ t2) = saved_files t1 ++ saved_files t2.
Proof. apply flat_map_app. Qed.

Lemma shown_app (t1 t2 : list (call F)) :
  shown (t1 ++ t2) = shown t1 || shown t2.
Proof. apply existsb_app. Qed.

(** The calls of [plot] on a table, when neither list of the palette is
    empty and matplotlib returns from every call. *)
Lemma plot_trace (s : self F) c rows (showfig savefig combined : bool) :
  stacked s = Some (Arr2 c rows) -> 3 <= c ->
  ref_colors s <> [] -> ref_styles s <> [] ->
  plot s showfig savefig combined =
  (plot_calls s rows showfig savefig combined, Ret tt).
Proof.
  intros Hs Hc Hcol Hsty. unfold plot, plot_calls.
  rewrite !(stacked_column_table s c rows) by (assumption || lia).
  unfold steps, dbind, try_eval, emit, dret, when.
  destruct combined.
  - rewrite (ref_loop_styled plt true _ _ _ 0 Hcol Hsty).
    destruct showfig, savefig; cbn [app]; rewrite ?app_nil_r; reflexivity.
  - rewrite (ref_loop_styled (axs 0) true _ _ _ 0 Hcol Hsty).
    rewrite (ref_loop_styled (axs 1) false _ _ _ 0 Hcol Hsty).
    destruct showfig, savefig; cbn [app]; rewrite ?app_nil_r; reflexivity.
Qed.

(** ** [plot] against a backend *)

Lemma invoke_all_app (mpl : backend F) (a b : list (call F)) h :
  invoke_all mpl (a ++ b) h =
  script_bind (invoke_all mpl a) (fun _ => invoke_all mpl b) h.
Proof.
  revert h. induction a as [|c a IH]; intros h; [reflexivity|].
  simpl. unfold script_bind, invoke.
  destruct (mpl h c) as [u|e]; [|reflexivity].
  rewrite IH. reflexivity.
Qed.

Lemma script_bind_ret (m : script F unit) h :
  script_bind m (fun _ => script_ret tt) h = m h.
Proof.
  unfold script_bind, script_ret. destruct (m h) as [h' [[]|e]]; reflexivity.
Qed.

Lemma ref_loop_with_calls (mpl : backend F) (on : target) labelled colors styles
  (lines : list (F * option string)) i h :
  colors <> [] -> styles <> [] ->
  ref_loop_with mpl on labelled colors styles lines i h =
  invoke_all mpl (map (axvline_of on) (styled_from colors styles labelled i lines)) h.
Proof.
  intros Hc Hs. revert i h. induction lines as [|refline rest IH]; intros i h; [reflexivity|].
  simpl ref_loop_with. simpl in_turn.
  unfold script_bind at 1. unfold script_bind at 1. unfold script_bind at 1.
  unfold compute.
  rewrite !pymod_pos by (destruct colors, styles; simpl; congruence).
  simpl map. simpl invoke_all. unfold script_bind at 2. unfold invoke.
  destruct (mpl h _) as [u|e]; [|reflexivity].
  rewrite script_bind_ret. apply IH.
Qed.

(** What a run against a backend looks like: the calls made are an initial
    segment of the calls to make, all of them when nothing was raised, and
    the outcome is what the backend answered to the last call made. *)
Lemma invoke_all_run (mpl : backend F) (cs : list (call F)) h :
  exists tr,
    fst (invoke_all mpl cs h) = h ++ tr /\
    initial_segment tr cs /\
    (snd (invoke_all mpl cs h) = Ret tt -> tr = cs) /\
    (forall e, snd (invoke_all mpl cs h) = Raise e -> tr <> []) /\
    (forall pre c, tr = pre ++ [c] -> snd (invoke_all mpl cs h) = mpl (h ++ pre) c).
Proof.
  revert h. induction cs as [|c cs IH]; intros h.
  - exists []. simpl. rewrite app_nil_r. repeat split.
    + exists []. reflexivity.
    + discriminate.
    + intros pre c E. destruct pre; discriminate.
  - simpl. unfold script_bind, invoke.
    destruct (mpl h c) as [[]|e] eqn:Hm.
    + destruct (IH (h ++ [c])) as (tr & E1 & [post Hpre] & Hret & Hraise & Hlast).
      exists (c :: tr). rewrite E1, <- app_assoc. simpl.
      split; [reflexivity|]. split; [exists post; rewrite Hpre; reflexivity|].
      split; [intros H; f_equal; auto|].
      split; [discriminate|].
      intros pre c' E.
      destruct pre as [|p pre].
      * simpl in E. injection E as <- Etr. subst tr.
        rewrite app_nil_r, Hm.
        destruct cs as [|c2 cs]; [reflexivity|].
        exfalso. destruct (snd (invoke_all mpl (c2 :: cs) (h ++ [c]))) as [[]|e] eqn:Hs.
        -- specialize (Hret eq_refl). discriminate.
        -- apply (Hraise e); reflexivity.
      * simpl in E. injection E as <- Etr.
        rewrite (Hlast pre c' Etr), <- app_assoc. reflexivity.
    + exists [c]. simpl. split; [reflexivity|]. split; [exists cs; reflexivity|].
      split; [discriminate|]. split; [discriminate|].
      intros pre c' E. destruct pre as [|p pre].
      * simpl in E. injection E as <-. rewrite app_nil_r. symmetry. exact Hm.
      * simpl in E. injection E as _ E. destruct pre; discriminate.
Qed.

Lemma in_turn_calls (mpl : backend F) (body : list (script F unit))
  (css : list (list (call F))) :
  Forall2 (fun m cs => forall h, m h = invoke_all mpl cs h) body css ->
  forall h, in_turn body h = invoke_all mpl (concat css) h.
Proof.
  induction 1 as [|m cs body css Hm _ IH]; intros h; [reflexivity|].
  simpl. rewrite invoke_all_app. unfold script_bind. rewrite Hm.
  destruct (invoke_all mpl cs h) as [h' [u|e]]; [apply IH|reflexivity].
Qed.

Lemma invoke_calls (mpl : backend F) (c : call F) h :
  invoke mpl c h = invoke_all mpl [c] h.
Proof. simpl. rewrite script_bind_ret. reflexivity. Qed.

Lemma only_if_calls (mpl : backend F) (b : bool) (c : call F) h :
  only_if b (invoke mpl c) h = invoke_all mpl (if b then [c] else []) h.
Proof. destruct b; [apply invoke_calls|reflexivity]. Qed.

Lemma plot_with_calls (mpl : backend F) (s : self F) c rows
  (showfig savefig combined : bool) h :
  stacked s = Some (Arr2 c rows) -> 3 <= c ->
  ref_colors s <> [] -> ref_styles s <> [] ->
  plot_with mpl s showfig savefig combined h =
  invoke_all mpl (plot_calls s rows showfig savefig combined) h.
Proof.
  intros Hs Hc Hcol Hsty. unfold plot_with, plot_calls.
  rewrite !(stacked_column_table s c rows) by (assumption || lia).
  destruct combined.
  - rewrite (in_turn_calls mpl _
      [ [mpl_figure];
        [mpl_plot plt (map (fun r => nth 0 r szero) rows)
           (map (fun r => nth 1 r szero) rows) (Some "AND operation"%string)];
        [mpl_plot plt (map (fun r => nth 0 r szero) rows)
           (map (fun r => nth 2 r szero) rows) (Some "OR operation"%string)];
        map (axvline_of plt)
          (styled_from (ref_colors s) (ref_styles s) true 0 (ref_lines s));
        [mpl_title plt (case_name s ++ " Stacked periodograms")%string];
        [mpl_xlabel plt "Frequency"]; [mpl_ylabel plt "Normalized power"];
        [mpl_legend plt];
        if showfig then [mpl_show plt] else [];
        if savefig
        then [mpl_savefig (folder s ++ case_name s ++ "_StackedPG_Combined.jpg")%string]
        else [] ]).
    + cbn [concat app]. rewrite app_nil_r. reflexivity.
    + repeat constructor; intros h';
        try apply invoke_calls; try apply only_if_calls;
        try (apply ref_loop_with_calls; assumption).
  - rewrite (in_turn_calls mpl _
      [ [mpl_subplots];
        [mpl_title fig (case_name s ++ " Stacked periodograms")%string];
        [mpl_plot (axs 0) (map (fun r => nth 0 r szero) rows)
           (map (fun r => nth 1 r szero) rows) None];
        [mpl_title (axs 0) "AND operation"];
        [mpl_xlabel (axs 0) "Frequency"]; [mpl_ylabel (axs 0) "Normalized power"];
        map (axvline_of (axs 0))
          (styled_from (ref_colors s) (ref_styles s) true 0 (ref_lines s));
        [mpl_plot (axs 1) (map (fun r => nth 0 r szero) rows)
           (map (fun r => nth 2 r szero) rows) None];
        [mpl_title (axs 1) "OR operation"];
        [mpl_xlabel (axs 1) "Frequency"]; [mpl_ylabel (axs 1) "Normalized power"];
        map (axvline_of (axs 1))
          (styled_from (ref_colors s) (ref_styles s) false 0 (ref_lines s));
        [mpl_tight_layout]; [mpl_legend fig];
        if showfig then [mpl_show fig] else [];
        if savefig
        then [mpl_savefig (folder s ++ case_name s ++ "_StackedPG_Separate.jpg")%string]
        else [] ]).
    + cbn [concat app]. rewrite app_nil_r. reflexivity.
    + repeat constructor; intros h';
        try apply invoke_calls; try apply only_if_calls;
        try (apply ref_loop_with_calls; assumption).
Qed.

(** Initial segments. *)
Lemma initial_segment_flat_map {A B} (f : A -> list B) (a b : list A) :
  initial_segment a b -> initial_segment (flat_map f a) (flat_map f b).
Proof.
  intros [c ->]. exists (flat_map f c). apply flat_map_app.
Qed.

Lemma initial_segment_snoc {A} (tr a : list A) (x : A) :
  initial_segment tr (a ++ [x]) -> initial_segment tr a \/ tr = a ++ [x].
Proof.
  intros [c E]. destruct c as [|y c] using rev_ind.
  - right. rewrite app_nil_r in E. auto.
  - left. rewrite app_assoc in E. apply app_inj_tail in E. destruct E as [-> _].
    exists c. reflexivity.
Qed.

Lemma initial_segment_nil {A} (tr : list A) : initial_segment tr [] -> tr = [].
Proof. intros [c E]. destruct tr; [reflexivity|discriminate]. Qed.

Lemma initial_segment_app_nil {A} (tr a : list A) : initial_segment tr (a ++ []) -> initial_segment tr a.
Proof. rewrite app_nil_r. auto. Qed.

Lemma shown_initial_segment (tr cs : list (call F)) :
  initial_segment tr cs -> shown tr = true -> shown cs = true.
Proof.
  intros [c ->] H. rewrite shown_app, H. reflexivity.
Qed.
Lemma plot_calls_axvlines (s : self F) rows (showfig savefig combined : bool) :
  if combined
  then axvlines_on plt (plot_calls s rows showfig savefig combined) =
         styled_from (ref_colors s) (ref_styles s) true 0 (ref_lines s)
  else axvlines_on (axs 0) (plot_calls s rows showfig savefig combined) =
         styled_from (ref_colors s) (ref_styles s) true 0 (ref_lines s) /\
       axvlines_on (axs 1) (plot_calls s rows showfig savefig combined) =
         styled_from (ref_colors s) (ref_styles s) false 0 (ref_lines s).
Proof.
  unfold plot_calls. destruct combined.
  - rewrite !axvlines_on_app, axvlines_on_lines.
    destruct showfig, savefig; simpl; rewrite app_nil_r; reflexivity.
  - rewrite !axvlines_on_app, !axvlines_on_lines.
    destruct showfig, savefig; simpl; rewrite ?app_nil_r; split; reflexivity.
Qed.

Lemma plot_calls_split (s : self F) rows (showfig savefig combined : bool) :
  exists body,
    plot_calls s rows showfig savefig combined =
      body ++ (if savefig
               then [mpl_savefig
                       (folder s ++ case_name s ++
                        (if combined then "_StackedPG_Combined.jpg"
                         else "_StackedPG_Separate.jpg"))%string]
               else []) /\
    saved_files body = [] /\ shown body = showfig.
Proof.
  unfold plot_calls. destruct combined.
  - eexists. split; [rewrite !app_assoc; reflexivity|].
    rewrite !shown_app, !saved_files_app.
    destruct (saved_files_lines plt
      (styled_from (ref_colors s) (ref_styles s) true 0 (ref_lines s))) as [-> ->].
    destruct showfig; split; reflexivity.
  - eexists. split; [rewrite !app_assoc; reflexivity|].
    rewrite !shown_app, !saved_files_app.
    destruct (saved_files_lines (axs 0)
      (styled_from (ref_colors s) (ref_styles s) true 0 (ref_lines s))) as [-> ->].
    destruct (saved_files_lines (axs 1)
      (styled_from (ref_colors s) (ref_styles s) false 0 (ref_lines s))) as [-> ->].
    destruct showfig; split; reflexivity.
Qed.

(** [plot] above is the run against the backend that returns from every
    call. *)
Lemma invoke_all_accepted (cs : list (call F)) h :
  invoke_all (fun _ _ => Ret tt) cs h = (h ++ cs, Ret tt).
Proof.
  revert h. induction cs as [|c cs IH]; intros h.
  - simpl. unfold script_ret. rewrite app_nil_r. reflexivity.
  - simpl. unfold script_bind, invoke. rewrite IH, <- app_assoc. reflexivity.
Qed.

Lemma plot_with_accepted (s : self F) c rows (showfig savefig combined : bool) :
  stacked s = Some (Arr2 c rows) -> 3 <= c ->
  ref_colors s <> [] -> ref_styles s <> [] ->
  plot_with (fun _ _ => Ret tt) s showfig savefig combined [] =
  plot s showfig savefig combined.
Proof.
  intros Hs Hc Hcol Hsty.
  rewrite (plot_with_calls _ s c rows _ _ _ [] Hs Hc Hcol Hsty).
  rewrite (plot_trace s c rows _ _ _ Hs Hc Hcol Hsty).
  apply invoke_all_accepted.
Qed.

(** X9.  On a table, with a colour list and a style list that are not
    empty, whatever matplotlib does: the code of [plot] raises nothing by
    itself - when [plot] raises, the exception is the one matplotlib raised
    on the last call made.  The [axvline] calls made on the combined figure
    (on each of the two axes of the separate figure) are an initial segment
    of one call per reference line, in order, the [i]-th with the colour at
    index [i mod len(ref_colors)] and the style at [i mod len(ref_styles)],
    labelled on the combined figure and on the upper axes, with label
    [None] on the lower axes; when [plot] returns, all of them were
    made. *)
Theorem plot_reference_lines (mpl : backend F) (s : self F) c rows
  (showfig savefig combined : bool) :
  stacked s = Some (Arr2 c rows) -> 3 <= c ->
  ref_colors s <> [] -> ref_styles s <> [] ->
  let tr := fst (plot_with mpl s showfig savefig combined []) in
  let out := snd (plot_with mpl s showfig savefig combined []) in
  let lines lab := styled_from (ref_colors s) (ref_styles s) lab 0 (ref_lines s) in
  (forall e, out = Raise e -> exists pre c, tr = pre ++ [c] /\ mpl pre c = Raise e) /\
  (if combined
   then initial_segment (axvlines_on plt tr) (lines true)
   else initial_segment (axvlines_on (axs 0) tr) (lines true) /\
        initial_segment (axvlines_on (axs 1) tr) (lines false)) /\
  (out = Ret tt ->
   if combined
   then axvlines_on plt tr = lines true
   else axvlines_on (axs 0) tr = lines true /\
        axvlines_on (axs 1) tr = lines false).
Proof.
  intros Hs Hc Hcol Hsty tr out lines. subst tr out lines.
  rewrite (plot_with_calls mpl s c rows _ _ _ [] Hs Hc Hcol Hsty).
  destruct (invoke_all_run mpl (plot_calls s rows showfig savefig combined) [])
    as (tr & E & Hpre & Hret & Hraise & Hlast).
  simpl in E. rewrite E.
  pose proof (plot_calls_axvlines s rows showfig savefig combined) as Hax.
  split; [|split].
  - intros e He. specialize (Hraise e He).
    destruct (exists_last Hraise) as (pre & c0 & Etr).
    exists pre, c0. split; [exact Etr|].
    rewrite <- He. symmetry. exact (Hlast pre c0 Etr).
  - destruct combined.
    + rewrite <- Hax. apply initial_segment_flat_map. exact Hpre.
    + destruct Hax as [H0 H1]. rewrite <- H0, <- H1.
      split; apply initial_segment_flat_map; exact Hpre.
  - intros Hout. rewrite (Hret Hout). exact Hax.
Qed.

(** X10.  Under the same conditions, whatever matplotlib does: [show] is
    called only if [showfig] is set; [plt.savefig] is called only if
    [savefig] is set, at most once, as the last call of [plot], on the path
    [folder + case_name + "_StackedPG_Combined.jpg"] for the combined
    figure and [... "_StackedPG_Separate.jpg"] for the separate one, and
    what matplotlib does on that call - return, or raise for want of the
    directory - is how [plot] ends.  When [plot] returns, [show] was called
    exactly if [showfig] is set and [plt.savefig] exactly if [savefig]
    is. *)
Theorem plot_shows_and_saves (mpl : backend F) (s : self F) c rows
  (showfig savefig combined : bool) :
  stacked s = Some (Arr2 c rows) -> 3 <= c ->
  ref_colors s <> [] -> ref_styles s <> [] ->
  let tr := fst (plot_with mpl s showfig savefig combined []) in
  let out := snd (plot_with mpl s showfig savefig combined []) in
  let path := (folder s ++ case_name s ++
               (if combined then "_StackedPG_Combined.jpg"
                else "_StackedPG_Separate.jpg"))%string in
  (shown tr = true -> showfig = true) /\
  (saved_files tr = [] \/
   savefig = true /\ saved_files tr = [path] /\
   exists pre, tr = pre ++ [mpl_savefig path] /\ out = mpl pre (mpl_savefig path)) /\
  (out = Ret tt ->
   shown tr = showfig /\ saved_files tr = if savefig then [path] else []).
Proof.
  intros Hs Hc Hcol Hsty tr out path. subst tr out path.
  rewrite (plot_with_calls mpl s c rows _ _ _ [] Hs Hc Hcol Hsty).
  destruct (invoke_all_run mpl (plot_calls s rows showfig savefig combined) [])
    as (tr & E & Hpre & Hret & Hraise & Hlast).
  simpl in E. rewrite E.
  destruct (plot_calls_split s rows showfig savefig combined) as (body & Ecs & Hsv & Hsh).
  assert (Hall : shown (plot_calls s rows showfig savefig combined) = showfig /\
                 saved_files (plot_calls s rows showfig savefig combined) =
                 if savefig
                 then [(folder s ++ case_name s ++
                        (if combined then "_StackedPG_Combined.jpg"
                         else "_StackedPG_Separate.jpg"))%string]
                 else []).
  { rewrite Ecs, shown_app, saved_files_app, Hsv, Hsh.
    destruct savefig; simpl; rewrite ?orb_false_r; split; reflexivity. }
  split; [|split].
  - intros H. rewrite <- (proj1 Hall). exact (shown_initial_segment _ _ Hpre H).
  - rewrite Ecs in Hpre. destruct savefig.
    + apply initial_segment_snoc in Hpre. destruct Hpre as [Hb| ->].
      * left. apply (initial_segment_flat_map
                       (fun c0 => match c0 with mpl_savefig p => [p] | _ => [] end)) in Hb.
        fold (saved_files tr) in Hb. fold (saved_files body) in Hb.
        rewrite Hsv in Hb. now apply initial_segment_nil.
      * right. split; [reflexivity|]. split.
        -- rewrite saved_files_app, Hsv. reflexivity.
        -- exists body. split; [reflexivity|]. exact (Hlast body _ eq_refl).
    + left. apply initial_segment_app_nil in Hpre.
      apply (initial_segment_flat_map
               (fun c0 => match c0 with mpl_savefig p => [p] | _ => [] end)) in Hpre.
      fold (saved_files tr) in Hpre. fold (saved_files body) in Hpre.
      rewrite Hsv in Hpre. now apply initial_segment_nil.
  - intros Hout. rewrite (Hret Hout). exact Hall.
Qed.

(** X11.  With at least one reference line and an empty colour list or
    an empty style list, [plot] raises [ZeroDivisionError] at the first
    reference line: no vertical line is drawn, the figure is neither shown
    nor saved. *)
Theorem plot_empty_palette (s : self F) c rows (showfig savefig combined : bool) :
  stacked s = Some (Arr2 c rows) -> 3 <= c ->
  ref_lines s <> [] -> ref_colors s = [] \/ ref_styles s = [] ->
  let tr := fst (plot s showfig savefig combined) in
  (exists e, snd (plot s showfig savefig combined) = Raise e /\
             exn_class e = "ZeroDivisionError"%string) /\
  (forall on, axvlines_on on tr = []) /\
  shown tr = false /\ saved_files tr = [].
Proof.
  intros Hs Hc Hl Hp tr. subst tr. unfold plot.
  rewrite !(stacked_column_table s c rows) by (assumption || lia).
  destruct combined.
  - destruct (ref_loop_empty_palette plt true _ _ _ 0 Hl Hp) as (e & He & Hcls).
    unfold steps, dbind, try_eval, emit, dret, when. rewrite He. cbn.
    repeat split; eauto.
  - destruct (ref_loop_empty_palette (axs 0) true _ _ _ 0 Hl Hp) as (e & He & Hcls).
    unfold steps, dbind, try_eval, emit, dret, when. rewrite He. cbn.
    repeat split; eauto.
Qed.

End Plot.

(** * Further properties in binary64 *)

Section MoreBinary64.

Local Open Scope float_scope.

Lemma nan_add_l x y : is_nan x = true -> is_nan (x + y) = true.
Proof.
  rewrite !is_nan_SF, add_spec. destruct (Prim2SF x); try discriminate. reflexivity.
Qed.
Lemma nan_add_r x y : is_nan y = true -> is_nan (x + y) = true.
Proof.
  rewrite !is_nan_SF, add_spec. destruct (Prim2SF y); try discriminate.
  destruct (Prim2SF x); reflexivity.
Qed.
Lemma nan_sub_l x y : is_nan x = true -> is_nan (x - y) = true.
Proof.
  rewrite !is_nan_SF, sub_spec. destruct (Prim2SF x); try discriminate. reflexivity.
Qed.
Lemma nan_sub_r x y : is_nan y = true -> is_nan (x - y) = true.
Proof.
  rewrite !is_nan_SF, sub_spec. destruct (Prim2SF y); try discriminate.
  destruct (Prim2SF x); reflexivity.
Qed.
Lemma nan_mul_l x y : is_nan x = true -> is_nan (x * y) = true.
Proof.
  rewrite !is_nan_SF, mul_spec. destruct (Prim2SF x); try discriminate. reflexivity.
Qed.
Lemma nan_mul_r x y : is_nan y = true -> is_nan (x * y) = true.
Proof.
  rewrite !is_nan_SF, mul_spec. destruct (Prim2SF y); try discriminate.
  destruct (Prim2SF x); reflexivity.
Qed.
Lemma nan_div_l x y : is_nan x = true -> is_nan (x / y) = true.
Proof.
  rewrite !is_nan_SF, div_spec. destruct (Prim2SF x); try discriminate. reflexivity.
Qed.
Lemma nan_div_r x y : is_nan y = true -> is_nan (x / y) = true.
Proof.
  rewrite !is_nan_SF, div_spec. destruct (Prim2SF y); try discriminate.
  destruct (Prim2SF x); reflexivity.
Qed.
Lemma nan_nonfinite x : is_nan x = true -> nonfinite x = true.
Proof. unfold nonfinite. intros ->. reflexivity. Qed.

Lemma pair_sums_cons (a b : float) l :
  pair_sums (a :: b :: l) = (b + a) :: pair_sums (b :: l).
Proof. reflexivity. Qed.

Lemma diff_cons (a b : float) l :
  diff (a :: b :: l) = (b - a) :: diff (b :: l).
Proof. reflexivity. Qed.

Lemma pair_sums_nan y : some_nan y -> 2 <= length y -> some_nan (pair_sums y).
Proof.
  induction y as [|a [|b l] IH]; simpl; intros H Hl; try lia.
  rewrite pair_sums_cons.
  inversion H as [? ? Ha|? ? Hr]; subst.
  - left. now apply nan_add_r.
  - destruct l as [|c l].
    + inversion Hr as [? ? Hb|? ? Hn]; subst; [|inversion Hn].
      left. now apply nan_add_l.
    + right. apply IH; [exact Hr|simpl; lia].
Qed.

Lemma diff_nan x : some_nan x -> 2 <= length x -> some_nan (diff x).
Proof.
  induction x as [|a [|b l] IH]; simpl; intros H Hl; try lia.
  rewrite diff_cons.
  inversion H as [? ? Ha|? ? Hr]; subst.
  - left. now apply nan_sub_r.
  - destruct l as [|c l].
    + inversion Hr as [? ? Hb|? ? Hn]; subst; [|inversion Hn].
      left. now apply nan_sub_l.
    + right. apply IH; [exact Hr|simpl; lia].
Qed.

Lemma map2_nan_l (op : float -> float -> float) a b :
  (forall x y, is_nan x = true -> is_nan (op x y) = true) ->
  length a = length b -> some_nan a -> some_nan (map2 op a b).
Proof.
  intros Hop. revert b. induction a as [|x a IH]; intros [|y b] Hl H; simpl in *;
    try discriminate; [inversion H|].
  inversion H; subst; [left; auto|right; apply IH; auto].
Qed.

Lemma map2_nan_r (op : float -> float -> float) a b :
  (forall x y, is_nan y = true -> is_nan (op x y) = true) ->
  length a = length b -> some_nan b -> some_nan (map2 op a b).
Proof.
  intros Hop. revert b. induction a as [|x a IH]; intros [|y b] Hl H; simpl in *;
    try discriminate; [inversion H|].
  inversion H; subst; [left; auto|right; apply IH; auto].
Qed.

Lemma sum_nan l : some_nan l -> is_nan (sum l) = true.
Proof.
  exact (sum_absorbs (SF:=float_scalar) (fun v => is_nan v = true) nan_add_l nan_add_r l).
Qed.

(** A NaN in the curve or in the grid makes the integral NaN. *)
Lemma trapezoid_nan (y x : list float) :
  length y = length x -> 2 <= length y ->
  some_nan y \/ some_nan x -> is_nan (trapezoid y x) = true.
Proof.
  intros Hl Hn H. unfold trapezoid. apply sum_nan.
  unfold some_nan. apply Exists_map.
  assert (Hp : some_nan (map2 smul (diff x) (pair_sums y))).
  { destruct H as [Hy|Hx].
    - apply map2_nan_r; [exact nan_mul_r| |apply pair_sums_nan; assumption].
      rewrite diff_length, pair_sums_length. lia.
    - apply map2_nan_l; [exact nan_mul_l| |apply diff_nan; [assumption|lia]].
      rewrite diff_length, pair_sums_length. lia. }
  revert Hp. apply Exists_impl. intros v Hv. now apply nan_div_l.
Qed.

Lemma nan_table_normalized n (t : ndarray float) :
  has_rows n t -> 2 <= n -> has_nan t -> all_nonfinite (normalized t).
Proof.
  intros Ht Hn Hnan. destruct t as [v|v|c rows]; try contradiction.
  destruct Ht as [_ Hrows]. unfold normalized, div_by.
  apply Forall_map. apply Forall_forall. intros v _.
  apply nan_nonfinite, nan_div_r, trapezoid_nan.
  - rewrite power_col_length, freq_col_length. reflexivity.
  - rewrite power_col_length. lia.
  - exact Hnan.
Qed.

Lemma nan_curve (op : float -> float -> float) n t0 ts :
  (forall x y, nonfinite x = true -> nonfinite (op x y) = true) ->
  (forall x y, nonfinite y = true -> nonfinite (op x y) = true) ->
  2 <= n -> Forall (has_rows n) (t0 :: ts) -> Exists has_nan (t0 :: ts) ->
  all_nonfinite (fold_left (map2 op) (map normalized ts) (normalized t0)).
Proof.
  intros Hl Hr Hn Hrows Hex. apply fold_all_nonfinite; [exact Hl|exact Hr|].
  inversion Hrows as [|? ? Ht0 Hts]; subst.
  inversion Hex as [? ? H0|? ? Hs]; subst.
  - left. now apply (nan_table_normalized n).
  - right. apply Exists_exists in Hs. destruct Hs as (t & Hin & Ht).
    apply Exists_exists. exists (normalized t). split; [now apply in_map|].
    apply (nan_table_normalized n); auto.
    exact (proj1 (Forall_forall _ _) Hts t Hin).
Qed.

(** X12.  In binary64: over files that parse into matrices of one row
    count, at least two, a NaN anywhere in the power column or in the
    frequency column of any file makes every value of the AND column and
    of the OR column of the result NaN; nothing is raised and nothing is
    logged. *)
Theorem nan_poisons_result n f0 fs (t0 : ndarray float) ts :
  2 <= n ->
  parses_to f0 t0 -> has_rows n t0 ->
  Forall2 (fun f t => parses_to f t /\ has_rows n t) fs ts ->
  Exists has_nan (t0 :: ts) ->
  let r := _calcStacked (f0 :: fs) in
  raised r = None /\ run_error_files r = [] /\
  length (result_col 1 r) = n /\ length (result_col 2 r) = n /\
  all_nan (result_col 1 r) /\ all_nan (result_col 2 r).
Proof.
  intros Hn Hf0 Ht0 Hfs Hnan r.
  destruct (run_rows n f0 fs t0 ts Hf0 Ht0 Hfs)
    as ((Hr & He & _ & E1 & E2) & Hfr & Hand & Hor).
  fold r in Hr, He, E1, E2. rewrite E1, E2, !div_by_length.
  assert (Hrows : Forall (has_rows n) (t0 :: ts)).
  { constructor; [exact Ht0|]. clear - Hfs.
    induction Hfs as [|f t fs ts [_ Ht] _ IH]; constructor; auto. }
  pose proof (nan_curve smul n t0 ts mul_nonfinite_l mul_nonfinite_r Hn Hrows Hnan) as Ha.
  pose proof (nan_curve sadd n t0 ts add_nonfinite_l add_nonfinite_r Hn Hrows Hnan) as Ho.
  repeat split; auto.
  - apply div_by_nonfinite_nan; [|exact Ha].
    apply trapezoid_nonfinite; [exact Ha| |]; lia.
  - apply div_by_nonfinite_nan; [|exact Ho].
    apply trapezoid_nonfinite; [exact Ho| |]; lia.
Qed.

(** ** A zero in the product *)

Lemma zero_or_nan_SF x :
  zero_or_nan x =
  match Prim2SF x with S754_zero _ | S754_nan => true | _ => false end.
Proof.
  unfold zero_or_nan. rewrite is_zero_SF, is_nan_SF.
  destruct (Prim2SF x); reflexivity.
Qed.

Lemma mul_zero_or_nan_l x y : zero_or_nan x = true -> zero_or_nan (x * y) = true.
Proof.
  rewrite !zero_or_nan_SF, mul_spec.
  destruct (Prim2SF x); try discriminate; intros _; destruct (Prim2SF y); reflexivity.
Qed.

Lemma mul_zero_or_nan_r x y : zero_or_nan y = true -> zero_or_nan (x * y) = true.
Proof.
  rewrite !zero_or_nan_SF, mul_spec.
  destruct (Prim2SF y); try discriminate; intros _; destruct (Prim2SF x); reflexivity.
Qed.

Lemma div_zero_or_nan_l x y : zero_or_nan x = true -> zero_or_nan (x / y) = true.
Proof.
  rewrite !zero_or_nan_SF, div_spec.
  destruct (Prim2SF x); try discriminate; intros _; destruct (Prim2SF y); reflexivity.
Qed.

Lemma fold_mul_zero_or_nan (l : list float) acc :
  zero_or_nan acc = true \/ Exists (fun v => zero_or_nan v = true) l ->
  zero_or_nan (fold_left PrimFloat.mul l acc) = true.
Proof.
  revert acc. induction l as [|x l IH]; intros acc [Ha|Hl]; simpl.
  - exact Ha.
  - inversion Hl.
  - apply IH. left. now apply mul_zero_or_nan_l.
  - apply IH. inversion Hl; subst; [left; now apply mul_zero_or_nan_r|now right].
Qed.

Lemma normalized_zero_or_nan n (t : ndarray float) i :
  has_rows n t -> (i < n)%nat ->
  is_zero (nth i (power_col t) 0) = true ->
  zero_or_nan (nth i (normalized t) 0) = true.
Proof.
  intros Ht Hi Hz. destruct t as [v|v|c rows]; try contradiction.
  destruct Ht as [_ Hrows]. unfold normalized.
  rewrite (div_by_nth (F:=float)) by (rewrite power_col_length; lia).
  apply div_zero_or_nan_l. unfold zero_or_nan. rewrite Hz. reflexivity.
Qed.

(** X15.  In binary64: over files that parse into matrices of one row
    count, at a grid index where the power of some file is zero (of either
    sign), the AND column of the result is a zero or NaN, whatever the other
    files hold there: never a number other than zero, never an infinity.
    (It is NaN, for one, when the product of the other files has overflowed
    to an infinity there.) *)
Theorem and_zero_or_nan_where_a_file_is_zero n f0 fs (t0 : ndarray float) ts (i : nat) :
  (i < n)%nat ->
  parses_to f0 t0 -> has_rows n t0 ->
  Forall2 (fun f t => parses_to f t /\ has_rows n t) fs ts ->
  Exists (fun t => is_zero (nth i (power_col t) 0) = true) (t0 :: ts) ->
  let r := _calcStacked (f0 :: fs) in
  raised r = None /\ run_error_files r = [] /\
  length (result_col 1 r) = n /\
  zero_or_nan (nth i (result_col 1 r) 0) = true.
Proof.
  intros Hi Hf0 Ht0 Hfs Hz r.
  destruct (run_rows n f0 fs t0 ts Hf0 Ht0 Hfs)
    as ((Hr & He & _ & E1 & _) & Hfr & Hand & _).
  fold r in Hr, He, E1. rewrite E1, div_by_length.
  repeat split; auto.
  rewrite (div_by_nth (F:=float)) by lia.
  apply div_zero_or_nan_l.
  destruct (rows_lengths n fs ts Hfs) as [Hls _].
  assert (Hn0 : length (normalized t0) = n).
  { destruct t0 as [v|v|c rows]; try contradiction.
    rewrite normalized_length. exact (proj2 Ht0). }
  unfold and_curve.
  rewrite (fold_map2_nth (F:=float) smul _ _ n i 0 Hn0 Hls Hi).
  apply fold_mul_zero_or_nan.
  apply Exists_cons in Hz. destruct Hz as [H0|Hs].
  - left. now apply (normalized_zero_or_nan n).
  - right. apply Exists_exists in Hs. destruct Hs as (t & Hin & Ht).
    apply Exists_exists. exists (nth i (normalized t) 0). split.
    + apply in_map_iff. exists (normalized t). split; [reflexivity|now apply in_map].
    + apply (normalized_zero_or_nan n); auto.
      clear - Hfs Hin. induction Hfs as [|f t' fs ts [_ Ht'] _ IH]; [contradiction|].
      destruct Hin as [<-|Hin]; auto.
Qed.

End MoreBinary64.

(** * The further statements on the example folders *)

Section MoreExamples.

Local Open Scope float_scope.

Lemma later_fold_iff_witness :
  from_genfromtxt (pg_file "b.dat" grid012 [1; 1; 1]) /\
  same_length (vars (for_loop [pg_file "a.dat" grid012 power234] loop_state0)) /\
  ((exists l', try_body (pg_file "b.dat" grid012 [1; 1; 1])
                 (vars (for_loop [pg_file "a.dat" grid012 power234] loop_state0)) =
               (Ret tt, l')) <->
   (exists c rows, genfromtxt (pg_file "b.dat" grid012 [1; 1; 1]) = Ret (Arr2 c rows) /\
                   (2 <= c)%nat /\ length rows = length grid012)).
Proof.
  assert (H1 : from_genfromtxt (pg_file "b.dat" grid012 [1; 1; 1]))
    by (split; [apply le_n|apply le_S, le_n]).
  assert (H2 : same_length (vars (for_loop [pg_file "a.dat" grid012 power234] loop_state0)))
    by (repeat split; apply le_S, le_n).
  exact (conj H1 (conj H2 (later_fold_iff _ _ grid012 H1 H2 eq_refl))).
Defined.

Lemma any_failure_is_skipped_witness :
  isfile (pg_file "short.dat" [0; 1] [2; 3]) = true /\
  fst (try_body (pg_file "short.dat" [0; 1] [2; 3])
         (vars (for_loop (pg_files_of [pg_file "a.dat" grid012 power234]) loop_state0))) =
    Raise (ValueError "operands could not be broadcast together with shapes (3,) (2,) ") /\
  stacked (_calcStacked [pg_file "a.dat" grid012 power234;
                         pg_file "short.dat" [0; 1] [2; 3];
                         pg_file "b.dat" grid012 [1; 1; 1]]) =
  stacked (_calcStacked [pg_file "a.dat" grid012 power234;
                         pg_file "b.dat" grid012 [1; 1; 1]]).
Proof.
  refine (conj eq_refl (conj eq_refl _)).
  exact (proj1 (any_failure_is_skipped
                  [pg_file "a.dat" grid012 power234]
                  [pg_file "b.dat" grid012 [1; 1; 1]]
                  (pg_file "short.dat" [0; 1] [2; 3]) _ eq_refl eq_refl)).
Defined.

Lemma first_grid_wins_witness :
  parses_to (pg_file "a.dat" grid012 power234) (table grid012 power234) /\
  has_rows 3 (table grid012 power234) /\
  Forall2 (fun f t => parses_to f t /\ has_rows 3 t)
    [pg_file "pg1.dat" grid123 [1; 1; 1]] [table grid123 [1; 1; 1]] /\
  result_col 0 (_calcStacked [pg_file "a.dat" grid012 power234;
                              pg_file "pg1.dat" grid123 [1; 1; 1]]) = grid012.
Proof.
  assert (H1 : parses_to (pg_file "a.dat" grid012 power234) (table grid012 power234))
    by (split; reflexivity).
  assert (H2 : has_rows 3 (table grid012 power234)) by (split; [apply le_n|reflexivity]).
  assert (H3 : Forall2 (fun f t => parses_to f t /\ has_rows 3 t)
                 [pg_file "pg1.dat" grid123 [1; 1; 1]] [table grid123 [1; 1; 1]])
    by (repeat constructor).
  refine (conj H1 (conj H2 (conj H3 _))).
  exact (proj1 (proj2 (proj2 (first_grid_wins 3 _ _ _ _ H1 H2 H3)))).
Defined.

Lemma log_lists_unparsable_files_witness :
  Forall (fun f => valid_on grid012 f \/ parses f = false)
    (pg_files_of [pg_file "a.dat" grid012 power234;
                  bad_file "notes.txt" some_parse_error;
                  pg_file "b.dat" grid012 [1; 1; 1]]) /\
  run_error_files (_calcStacked [pg_file "a.dat" grid012 power234;
                                 bad_file "notes.txt" some_parse_error;
                                 pg_file "b.dat" grid012 [1; 1; 1]]) =
  [("notes.txt"%string, "Some errors were detected !"%string)].
Proof.
  assert (H : Forall (fun f => valid_on grid012 f \/ parses f = false)
    (pg_files_of [pg_file "a.dat" grid012 power234;
                  bad_file "notes.txt" some_parse_error;
                  pg_file "b.dat" grid012 [1; 1; 1]])).
  { constructor; [left; repeat split; apply le_n|].
    constructor; [right; reflexivity|].
    constructor; [left; repeat split; apply le_n|constructor]. }
  exact (conj H (proj1 (log_lists_unparsable_files grid012 _ H))).
Defined.

Lemma constructor_returns_iff_witness :
  Forall from_genfromtxt mixed_folder /\
  ((exists s, StackedPg.__init__ "pg/" None false " " "#" three_lines None None
                mixed_folder = Ret s) <->
   Exists (fun f => loads f = true) (pg_files_of mixed_folder)).
Proof.
  assert (H : Forall from_genfromtxt mixed_folder) by (repeat constructor).
  exact (conj H (constructor_returns_iff _ _ _ _ _ _ _ _ mixed_folder H)).
Defined.

Lemma constructed_table_witness :
  StackedPg.__init__ "pg/" None false " " "#" three_lines None (Some ["-"%string])
    scenario = Ret (scenario_object ["red"; "blue"; "green"; "orange"]%string) /\
  exists pre f post c rows0 rows,
    pg_files_of scenario = pre ++ f :: post /\
    Forall (fun f => loads f = false) pre /\
    genfromtxt f = Ret (Arr2 c rows0) /\
    StackedPg.stacked (scenario_object ["red"; "blue"; "green"; "orange"]%string) =
      Some (Arr2 3 rows) /\
    Forall (fun row => length row = 3%nat) rows /\
    map (fun row => nth 0 row szero) rows = freq_col (Arr2 c rows0) /\
    StackedPg.error_files (scenario_object ["red"; "blue"; "green"; "orange"]%string) =
      run_error_files (_calcStacked scenario).
Proof.
  assert (H : StackedPg.__init__ "pg/" None false " " "#" three_lines None
                (Some ["-"%string]) scenario =
              Ret (scenario_object ["red"; "blue"; "green"; "orange"]%string))
    by reflexivity.
  exact (conj H (constructed_table _ _ _ _ _ _ _ _ _ _ H)).
Defined.


Lemma plot_empty_palette_witness :
  StackedPg.ref_lines (scenario_object []) <> [] /\
  (StackedPg.ref_colors (scenario_object []) = [] \/
   StackedPg.ref_styles (scenario_object []) = []) /\
  StackedPg.saved_files
    (fst (StackedPg.plot (scenario_object []) true true true)) = [].
Proof.
  assert (Hl : StackedPg.ref_lines (scenario_object []) <> []) by discriminate.
  assert (Hp : StackedPg.ref_colors (scenario_object []) = [] \/
               StackedPg.ref_styles (scenario_object []) = []) by (left; reflexivity).
  refine (conj Hl (conj Hp _)).
  exact (proj2 (proj2 (proj2 (plot_empty_palette (scenario_object []) 3 _
                  true true true eq_refl (le_n 3%nat) Hl Hp)))).
Defined.

Lemma nan_poisons_result_witness :
  (2 <= 3)%nat /\
  parses_to (pg_file "a.dat" grid012 power234) (table grid012 power234) /\
  has_rows 3 (table grid012 power234) /\
  Exists has_nan [table grid012 power234; table grid012 [1; nan; 1]] /\
  all_nan (result_col 2 (_calcStacked [pg_file "a.dat" grid012 power234; nan_file])).
Proof.
  assert (H0 : (2 <= 3)%nat) by (apply le_S, le_n).
  assert (H1 : parses_to (pg_file "a.dat" grid012 power234) (table grid012 power234))
    by (split; reflexivity).
  assert (H2 : has_rows 3 (table grid012 power234)) by (split; [apply le_n|reflexivity]).
  assert (H3 : Forall2 (fun f t => parses_to f t /\ has_rows 3 t)
                 [nan_file] [table grid012 [1; nan; 1]])
    by (repeat constructor).
  assert (H4 : Exists has_nan [table grid012 power234; table grid012 [1; nan; 1]]).
  { right. left. left. right. left. reflexivity. }
  refine (conj H0 (conj H1 (conj H2 (conj H4 _)))).
  exact (proj2 (proj2 (proj2 (proj2 (proj2
           (nan_poisons_result 3 _ _ _ _ H0 H1 H2 H3 H4)))))).
Defined.

Lemma plot_reference_lines_witness :
  StackedPg.stacked (scenario_object ["red"; "blue"]%string) = Some scenario_table /\
  (3 <= 3)%nat /\
  StackedPg.ref_colors (scenario_object ["red"; "blue"]%string) <> [] /\
  StackedPg.ref_styles (scenario_object ["red"; "blue"]%string) <> [] /\
  snd (StackedPg.plot_with no_such_directory
         (scenario_object ["red"; "blue"]%string) true true true []) =
    Raise (Exn "FileNotFoundError"
             "[Errno 2] No such file or directory: 'pg/pg/_StackedPG_Combined.jpg'") /\
  initial_segment
    (StackedPg.axvlines_on StackedPg.plt
       (fst (StackedPg.plot_with no_such_directory
               (scenario_object ["red"; "blue"]%string) true true true [])))
    [(1.5, "red"%string, "-"%string, Some "a"%string);
     (2.5, "blue"%string, "-"%string, None);
     (3, "red"%string, "-"%string, Some "c"%string)].
Proof.
  assert (Hc : StackedPg.ref_colors (scenario_object ["red"; "blue"]%string) <> [])
    by discriminate.
  assert (Hs : StackedPg.ref_styles (scenario_object ["red"; "blue"]%string) <> [])
    by discriminate.
  refine (conj eq_refl (conj (le_n 3%nat) (conj Hc (conj Hs (conj eq_refl _))))).
  exact (proj1 (proj2 (plot_reference_lines no_such_directory
                  (scenario_object ["red"; "blue"]%string) 3 _
                  true true true eq_refl (le_n 3%nat) Hc Hs))).
Defined.

Lemma plot_shows_and_saves_witness :
  StackedPg.ref_colors (scenario_object ["red"; "blue"]%string) <> [] /\
  StackedPg.ref_styles (scenario_object ["red"; "blue"]%string) <> [] /\
  let tr := fst (StackedPg.plot_with no_such_directory
                   (scenario_object ["red"; "blue"]%string) false true false []) in
  let out := snd (StackedPg.plot_with no_such_directory
                    (scenario_object ["red"; "blue"]%string) false true false []) in
  StackedPg.saved_files tr = [] \/
  true = true /\
  StackedPg.saved_files tr = ["pg/pg/_StackedPG_Separate.jpg"%string] /\
  exists pre,
    tr = pre ++ [StackedPg.mpl_savefig "pg/pg/_StackedPG_Separate.jpg"] /\
    out = no_such_directory pre (StackedPg.mpl_savefig "pg/pg/_StackedPG_Separate.jpg").
Proof.
  assert (Hc : StackedPg.ref_colors (scenario_object ["red"; "blue"]%string) <> [])
    by discriminate.
  assert (Hs : StackedPg.ref_styles (scenario_object ["red"; "blue"]%string) <> [])
    by discriminate.
  refine (conj Hc (conj Hs _)).
  exact (proj1 (proj2 (plot_shows_and_saves no_such_directory
                  (scenario_object ["red"; "blue"]%string) 3 _
                  false true false eq_refl (le_n 3%nat) Hc Hs))).
Defined.

Lemma and_zero_or_nan_where_a_file_is_zero_witness :
  (0 < 3)%nat /\
  parses_to (pg_file "pg1.dat" grid123 [1; 1; 1]) (table grid123 [1; 1; 1]) /\
  has_rows 3 (table grid123 [1; 1; 1]) /\
  Exists (fun t => is_zero (nth 0 (power_col t) 0) = true)
    [table grid123 [1; 1; 1]; table grid123 [2; 2; 2]; table grid123 [0; 0; 4]] /\
  zero_or_nan (nth 0 (result_col 1 (_calcStacked scenario)) 0) = true.
Proof.
  assert (H0 : (0 < 3)%nat) by (apply le_S, le_S, le_n).
  assert (H1 : parses_to (pg_file "pg1.dat" grid123 [1; 1; 1]) (table grid123 [1; 1; 1]))
    by (split; reflexivity).
  assert (H2 : has_rows 3 (table grid123 [1; 1; 1])) by (split; [apply le_n|reflexivity]).
  assert (H3 : Forall2 (fun f t => parses_to f t /\ has_rows 3 t)
                 [pg_file "pg2.dat" grid123 [2; 2; 2]; pg_file "pg3.dat" grid123 [0; 0; 4]]
                 [table grid123 [2; 2; 2]; table grid123 [0; 0; 4]])
    by (repeat constructor).
  assert (H4 : Exists (fun t => is_zero (nth 0 (power_col t) 0) = true)
    [table grid123 [1; 1; 1]; table grid123 [2; 2; 2]; table grid123 [0; 0; 4]])
    by (right; right; left; reflexivity).
  refine (conj H0 (conj H1 (conj H2 (conj H4 _)))).
  exact (proj2 (proj2 (proj2
           (and_zero_or_nan_where_a_file_is_zero 3 _ _ _ _ 0 H0 H1 H2 H3 H4)))).
Defined.

(** The NaN of X15: over the grid of spacing 2^-520 two flat files
    normalize to 2^519 everywhere and their product overflows; a third file
    with power zero at the first frequency then gives infinity times zero
    there. *)
Lemma and_nan_where_a_file_is_zero :
  nth 0 (result_col 1 (_calcStacked
           [pg_file "a.dat" tiny_grid [1; 1; 1];
            pg_file "b.dat" tiny_grid [1; 1; 1];
            pg_file "c.dat" tiny_grid [0; 1; 1]])) 0 = nan.
Proof. vm_compute. reflexivity. Qed.

End MoreExamples.
